(** * ROG: continuation-pagination over a token-limited completion endpoint

    A shallow embedding of [ROG.py]: the accumulator
    [accumulate_response], the buffered driver [call_gpt], the streaming
    generator [call_gpt_stream] and the consumer loop of
    [generate_long_response], followed by the properties of the
    specification that concern them. *)

From Stdlib Require Import NArith ZArith Lia Ascii String.
From stdpp Require Import base list functions.

Local Open Scope N_scope.
Local Open Scope list_scope.

(** ** Python [str]

    A Python string is a sequence of Unicode code points; [len], [in],
    [replace], [strip] and [*] all work on code points.  A character is
    its code point, a string the list of them. *)

Definition char := N.
Definition str := list char.

(** An ASCII literal of the source, as code points. *)
Fixpoint lit (s : string) : str :=
  match s with
  | EmptyString => []
  | String a s' => N_of_ascii a :: lit s'
  end.

(** The escape [\n]. *)
Definition NL : char := 10.

(** The character U+2021 (double dagger) that the source writes literally. *)
Definition dagger : char := 8225.

Module PyStr.

(** [s.startswith(p)] *)
Fixpoint startswith (p s : str) : bool :=
  match p, s with
  | [], _ => true
  | _ :: _, [] => false
  | a :: p', b :: s' => (a =? b) && startswith p' s'
  end.

(** [sub in s]: [sub] starts at some position of [s]. *)
Fixpoint contains (sub s : str) : bool :=
  startswith sub s ||
  match s with
  | [] => false
  | _ :: s' => contains sub s'
  end.

(** The scan of [s.replace(old, new)] for a non-empty [old]: left to
    right, a match is replaced and the scan resumes after it, so matches
    never overlap.  [skip] counts the characters of the current match
    still to be passed over. *)
Fixpoint replace_scan (old new : str) (skip : nat) (s : str) : str :=
  match s with
  | [] => []
  | c :: s' =>
      match skip with
      | S k => replace_scan old new k s'
      | O =>
          if startswith old s
          then new ++ replace_scan old new (pred (length old)) s'
          else c :: replace_scan old new O s'
      end
  end.

(** [s.replace(old, new)].  For the empty [old] Python puts [new] before
    every character and at the end. *)
Definition replace (s old new : str) : str :=
  match old with
  | [] => new ++ flat_map (fun c => c :: new) s
  | _ :: _ => replace_scan old new O s
  end.

(** [c.isspace()], the characters [strip()] removes: the code points
    CPython classifies as whitespace. *)
Definition isspace (c : char) : bool :=
  ((9 <=? c) && (c <=? 13)) || ((28 <=? c) && (c <=? 32))
  || (c =? 133) || (c =? 160) || (c =? 5760)
  || ((8192 <=? c) && (c <=? 8202))
  || (c =? 8232) || (c =? 8233) || (c =? 8239) || (c =? 8287)
  || (c =? 12288).

Fixpoint lstrip (s : str) : str :=
  match s with
  | [] => []
  | c :: s' => if isspace c then lstrip s' else s
  end.

Definition rstrip (s : str) : str := rev (lstrip (rev s)).

(** [s.strip()] *)
Definition strip (s : str) : str := rstrip (lstrip s).

(** [s * n] *)
Definition mul (s : str) (n : nat) : str := concat (repeat s n).

(** Truth value of a string: non-empty. *)
Definition truthy (s : str) : bool :=
  match s with
  | [] => false
  | _ :: _ => true
  end.

(** [sub] occurs in [s], as a proposition. *)
Definition occurs (sub s : str) : Prop :=
  exists pre post, s = pre ++ sub ++ post.

End PyStr.

(** ** Messages *)

(** The dict [{"role": ..., "content": ...}] of the wire format. *)
Record message := Message { role : str; content : str }.

Definition generate_system_message (system_message : str) : message :=
  {| role := lit "system"; content := system_message |}.

Definition generate_user_message (user_message : str) : message :=
  {| role := lit "user"; content := user_message |}.

(** ** The accumulator *)

Definition accumulate_response
    (current_response accumulated_response : str) (conversation_ongoing : bool)
    (conversation stop_sequence : str) : str * bool * str :=
  let accumulated_response := accumulated_response ++ current_response in
  let conversation_ongoing :=
    if PyStr.contains stop_sequence current_response then false
    else conversation_ongoing in
  let conversation :=
    conversation ++ NL :: lit "Assistant:" ++ current_response
      ++ NL :: lit "User:Continue immediately after where you left off." in
  (accumulated_response, conversation_ongoing, conversation).

(** ** The streaming consumer filter

    The body of the loop over the yielded chunks in
    [generate_long_response]: the new value of [double_dagger_count], the
    text printed for this chunk (if any), and whether the loop breaks. *)

Record filtered := Filtered {
  new_count : nat;
  printed : option str;
  stopped : bool
}.

Definition filter_step (double_dagger_count : nat) (chunk : str) : filtered :=
  if PyStr.truthy chunk then
    if PyStr.contains [dagger] chunk then
      let double_dagger_count := (double_dagger_count + 1)%nat in
      if (double_dagger_count =? 5)%nat
      then Filtered double_dagger_count None true
      else Filtered double_dagger_count None false
    else
      Filtered O (Some (PyStr.mul [dagger] double_dagger_count ++ chunk))
        false
  else Filtered double_dagger_count None false.

(** The loop run over a given sequence of delivered chunks: what is printed
    for each chunk consumed, the final count, and whether the loop left
    through [break]. *)
Fixpoint filter_chunks (count : nat) (chunks : list str)
  : list (option str) * nat * bool :=
  match chunks with
  | [] => ([], count, false)
  | chunk :: rest =>
      let r := filter_step count chunk in
      if stopped r then ([printed r], new_count r, true)
      else
        let '(out, n, b) := filter_chunks (new_count r) rest in
        (printed r :: out, n, b)
  end.

(** The filter lets a sequence of delivered chunks through: each chunk is
    printed as it is when it is delivered, none is withheld, and the loop
    does not break. *)
Definition lets_through (chunks : list str) : Prop :=
  filter_chunks 0 chunks = (map Some chunks, O, false).

(** What reaches the display: the printed texts, concatenated. *)
Definition displayed (out : list (option str)) : str :=
  concat (omap id out).

(** ** Objects, exceptions and the world *)

(** Identity of a message dict.  The list [messages] holds references, and
    [messages[-1]['content'] = ...] mutates the object referred to. *)
Definition loc := nat.

Inductive exn :=
| IndexError
| TransportError (msg : str).

(** [str(e)] *)
Definition exn_text (e : exn) : str :=
  match e with
  | IndexError => lit "list index out of range"
  | TransportError msg => msg
  end.

(** The keyword arguments of [client.chat.completions.create].  The key
    ["messages"] holds the caller's list itself, so every call sees the
    messages as they are at that moment; [rq_stream] is [None] where the
    key is absent. *)
Record api_settings := ApiSettings {
  rq_model : str;
  rq_messages : list message;
  rq_max_tokens : Z;
  rq_frequency_penalty : Z;
  rq_presence_penalty : Z;
  rq_stream : option bool
}.

(** A streamed response: the [delta.content] of each chunk in order
    ([None] where absent), and the exception that ends the iteration, if
    one does. *)
Record chunk_stream := ChunkStream {
  deltas : list (option str);
  broken : option exn
}.

(** The completion transport, [client.chat.completions.create]: buffered it
    returns [response.choices[0].message.content], with [stream=True] the
    chunk iterator; either may raise.  [T] is the state of the client. *)
Class Client (T : Type) := {
  create : T -> api_settings -> T * (exn + str);
  create_stream : T -> api_settings -> T * (exn + chunk_stream)
}.

(** What a run acts on: the client, the message objects, the next unused
    identity, the texts printed so far and the requests sent so far, both
    oldest first. *)
Record world (T : Type) := World {
  client : T;
  objects : loc -> message;
  fresh : loc;
  stdout : list str;
  requests : list api_settings
}.
Arguments World {T}.
Arguments client {T}.
Arguments objects {T}.
Arguments fresh {T}.
Arguments stdout {T}.
Arguments requests {T}.

(** How a run ends: it returns, it raises, or it is cut short by the
    fuel. *)
Inductive outcome (A : Type) :=
| Ok (a : A)
| Raise (e : exn)
| OutOfFuel.
Arguments Ok {A}.
Arguments Raise {A}.
Arguments OutOfFuel {A}.

Section World.
Context {T : Type}.

Definition set_objects (h : loc -> message) (w : world T) : world T :=
  World (client w) h (fresh w) (stdout w) (requests w).

(** One call of the transport: the client changes state and the request
    is recorded. *)
Definition sent (c : T) (rq : api_settings) (w : world T) : world T :=
  World c (objects w) (fresh w) (stdout w) (requests w ++ [rq]).

(** [print(s, end=e)] *)
Definition print (s e : str) (w : world T) : world T :=
  World (client w) (objects w) (fresh w) (stdout w ++ [s ++ e])
    (requests w).

(** A new dict. *)
Definition alloc (m : message) (w : world T) : loc * world T :=
  (fresh w,
   World (client w) (<[fresh w := m]> (objects w)) (S (fresh w))
     (stdout w) (requests w)).

(** The list [messages] as the transport reads it. *)
Definition render (messages : list loc) (w : world T) : list message :=
  map (objects w) messages.

(** [messages[-1]['content']] *)
Definition get_last_content (messages : list loc) (w : world T)
  : exn + str :=
  match list.last messages with
  | None => inl IndexError
  | Some l => inr (content (objects w l))
  end.

(** [messages[-1]['content'] = v] *)
Definition set_last_content (messages : list loc) (v : str) (w : world T)
  : exn + world T :=
  match list.last messages with
  | None => inl IndexError
  | Some l =>
      inr (set_objects
             (<[l := Message (role (objects w l)) v]> (objects w)) w)
  end.

(** The [except] clause of both drivers: log, then re-raise. *)
Definition log_error (e : exn) (w : world T) : world T :=
  print (lit "An error occurred while calling OpenAI API: " ++ exn_text e)
    [NL] w.

End World.

(** ** The drivers

    The loops have no bound on the number of rounds; [fuel] bounds the
    rounds a run of the model may take, and [OutOfFuel] marks a run that
    needs more. *)

Section Drivers.
Context {T : Type} `{Client T}.

Variables (model : str) (messages : list loc) (max_tokens : Z)
          (stop_sequence : str).

Definition buffered_settings (w : world T) : api_settings :=
  ApiSettings model (render messages w) max_tokens 0 0 None.

Definition streaming_settings (w : world T) : api_settings :=
  ApiSettings model (render messages w) max_tokens 0 0 (Some true).

(** *** [call_gpt] *)

(** The body of the [while] loop: the [try] block and its [except]. *)
Definition call_gpt_round
    (accumulated_response : str) (conversation_ongoing : bool)
    (conversation : str) (w : world T)
  : (exn + str * bool * str) * world T :=
  let rq := buffered_settings w in
  let '(c, response) := create (client w) rq in
  let w := sent c rq w in
  match response with
  | inl e => (inl e, log_error e w)
  | inr current_response =>
      let '(accumulated_response, conversation_ongoing, conversation) :=
        accumulate_response current_response accumulated_response
          conversation_ongoing conversation stop_sequence in
      match set_last_content messages conversation w with
      | inl e => (inl e, log_error e w)
      | inr w =>
          (inr (accumulated_response, conversation_ongoing, conversation),
           w)
      end
  end.

Fixpoint call_gpt_loop (fuel : nat)
    (accumulated_response : str) (conversation_ongoing : bool)
    (conversation : str) (w : world T) : outcome str * world T :=
  if conversation_ongoing then
    match fuel with
    | O => (OutOfFuel, w)
    | S fuel =>
        match call_gpt_round accumulated_response conversation_ongoing
                conversation w with
        | (inl e, w) => (Raise e, w)
        | (inr (accumulated_response, conversation_ongoing, conversation),
           w) =>
            call_gpt_loop fuel accumulated_response conversation_ongoing
              conversation w
        end
    end
  else
    let accumulated_response :=
      PyStr.strip (PyStr.replace accumulated_response stop_sequence []) in
    (Ok (PyStr.strip accumulated_response), w).

Definition call_gpt (fuel : nat) (w : world T) : outcome str * world T :=
  match get_last_content messages w with
  | inl e => (Raise e, w)
  | inr conversation => call_gpt_loop fuel [] true conversation w
  end.

(** *** [call_gpt_stream]

    A generator: nothing of the body runs before the first [next], and
    each [next] runs it up to the following [yield]. *)

Inductive gen_state :=
| GenCreated
| GenRunning (accumulated_response : str) (conversation_ongoing : bool)
             (conversation : str)
| GenSuspended (accumulated_response : str) (conversation_ongoing : bool)
               (conversation current_response value : str)
               (rest : list (option str)) (failure : option exn)
| GenFinished.

Inductive gen_event :=
| Yield (value : str)
| StopIteration
| GenRaise (e : exn)
| GenOutOfFuel.

Definition gen_result : Type := gen_event * gen_state * world T.

(** The [for chunk in response] loop from the chunks [rest] on, up to the
    next [yield]; [round_end] is the rest of the round, entered when the
    iterator is exhausted. *)
Fixpoint gen_chunks (round_end : str -> world T -> gen_result)
    (accumulated_response : str) (conversation_ongoing : bool)
    (conversation current_response : str)
    (rest : list (option str)) (failure : option exn) (w : world T)
  : gen_result :=
  match rest with
  | [] =>
      match failure with
      | Some e => (GenRaise e, GenFinished, log_error e w)
      | None => round_end current_response w
      end
  | value :: rest =>
      match value with
      | Some value =>
          if PyStr.truthy value then
            (Yield value,
             GenSuspended accumulated_response conversation_ongoing
               conversation current_response value rest failure,
             w)
          else
            gen_chunks round_end accumulated_response conversation_ongoing
              conversation current_response rest failure w
      | None =>
          gen_chunks round_end accumulated_response conversation_ongoing
            conversation current_response rest failure w
      end
  end.

(** The end of a round, after the chunk loop: accumulate, rewrite the
    trailing message, and go back to the head of the [while] loop. *)
Definition gen_round_end (loop : str -> bool -> str -> world T -> gen_result)
    (accumulated_response : str) (conversation_ongoing : bool)
    (conversation current_response : str) (w : world T) : gen_result :=
  let '(accumulated_response, conversation_ongoing, conversation) :=
    accumulate_response current_response accumulated_response
      conversation_ongoing conversation stop_sequence in
  match set_last_content messages conversation w with
  | inl e => (GenRaise e, GenFinished, log_error e w)
  | inr w =>
      loop accumulated_response conversation_ongoing conversation w
  end.

(** The [while] loop from its head on, up to the next [yield]. *)
Fixpoint gen_loop (fuel : nat)
    (accumulated_response : str) (conversation_ongoing : bool)
    (conversation : str) (w : world T) : gen_result :=
  if conversation_ongoing then
    match fuel with
    | O =>
        (GenOutOfFuel,
         GenRunning accumulated_response conversation_ongoing conversation,
         w)
    | S fuel =>
        let rq := streaming_settings w in
        let '(c, response) := create_stream (client w) rq in
        let w := sent c rq w in
        match response with
        | inl e => (GenRaise e, GenFinished, log_error e w)
        | inr response =>
            gen_chunks
              (gen_round_end (gen_loop fuel) accumulated_response
                 conversation_ongoing conversation)
              accumulated_response conversation_ongoing conversation []
              (deltas response) (broken response) w
        end
    end
  else (StopIteration, GenFinished, w).

(** [next(g)] on the generator in state [g]. *)
Definition gen_next (fuel : nat) (g : gen_state) (w : world T)
  : gen_result :=
  match g with
  | GenCreated =>
      match get_last_content messages w with
      | inl e => (GenRaise e, GenFinished, w)
      | inr conversation => gen_loop fuel [] true conversation w
      end
  | GenRunning accumulated_response conversation_ongoing conversation =>
      gen_loop fuel accumulated_response conversation_ongoing
        conversation w
  | GenSuspended accumulated_response conversation_ongoing conversation
      current_response value rest failure =>
      let current_response := current_response ++ value in
      gen_chunks
        (gen_round_end (gen_loop fuel) accumulated_response
           conversation_ongoing conversation)
        accumulated_response conversation_ongoing conversation
        current_response rest failure w
  | GenFinished => (StopIteration, GenFinished, w)
  end.

(** *** The streaming branch of [generate_long_response]

    The [for] loop over the generator, with the filter as its body.
    [break] abandons the generator where it is suspended: nothing of its
    body runs any more. *)
Fixpoint consume (fuel : nat) (double_dagger_count : nat) (g : gen_state)
    (w : world T) : outcome unit * world T :=
  match fuel with
  | O => (OutOfFuel, w)
  | S fuel' =>
      match gen_next fuel g w with
      | (Yield chunk, g, w) =>
          let r := filter_step double_dagger_count chunk in
          let w :=
            match printed r with
            | Some text => print text [] w
            | None => w
            end in
          if stopped r then (Ok tt, w)
          else consume fuel' (new_count r) g w
      | (StopIteration, _, w) => (Ok tt, w)
      | (GenRaise e, _, w) => (Raise e, w)
      | (GenOutOfFuel, _, w) => (OutOfFuel, w)
      end
  end.

(** [n] successive calls of [next] on the generator: the events they
    return, in order. *)
Fixpoint gen_pulls (fuel n : nat) (g : gen_state) (w : world T)
  : list gen_event * gen_state * world T :=
  match n with
  | O => ([], g, w)
  | S n =>
      let '(event, g, w) := gen_next fuel g w in
      let '(events, g, w) := gen_pulls fuel n g w in
      (event :: events, g, w)
  end.

End Drivers.

(** ** [generate_long_response] *)

(** The default of the parameter [stop_sequence]: five double daggers. *)
Definition default_stop_sequence : str :=
  [dagger; dagger; dagger; dagger; dagger].

Definition system_prompt (stop_sequence : str) : str :=
  NL :: lit "    You are an AI assistant that provides detailed information on any topic."
  ++ NL :: lit "    You will be provided with a user prompt that asks for an explanation of a complex topic, and you need to generate a detailed response."
  ++ NL :: NL :: lit "    Input:"
  ++ NL :: lit "        1- A user prompt asking for an explanation of a complex topic."
  ++ NL :: NL :: lit "    Output:"
  ++ NL :: lit "        1- A detailed explanation of the topic, divided into 5 main sections, and 10 subsections inside each section."
  ++ NL :: lit "        2- Once the required output is generated to 100% completion, append the following text to the end of the response in PLAIN TEXT: '"
  ++ stop_sequence ++ lit "'"
  ++ NL :: lit "    ".

Definition user_prompt : str := lit "Explain quantum computing.".

Definition generate_long_response {T : Type} `{Client T}
    (fuel : nat) (model : str) (max_tokens : Z) (stop_sequence : str)
    (stream : bool) (w : world T) : outcome unit * world T :=
  let '(system, w) :=
    alloc (generate_system_message (system_prompt stop_sequence)) w in
  let '(user, w) := alloc (generate_user_message user_prompt) w in
  let messages := [system; user] in
  if negb stream then
    match call_gpt model messages max_tokens stop_sequence fuel w with
    | (Ok response, w) => (Ok tt, print response [NL] w)
    | (Raise e, w) => (Raise e, w)
    | (OutOfFuel, w) => (OutOfFuel, w)
    end
  else
    let double_dagger_count := O in
    consume model messages max_tokens stop_sequence fuel double_dagger_count
      GenCreated w.

(** ** Transports that deliver given fragments *)

Section Answers.
Context {T : Type} `{Client T}.

(** Whatever it is asked, the client in state [c] answers the next
    buffered calls with the fragments [fragments], in this order, and
    does not fail. *)
Fixpoint answers (c : T) (fragments : list str) : Prop :=
  match fragments with
  | [] => True
  | fragment :: rest =>
      forall rq, exists c',
        create c rq = (c', inr fragment) /\ answers c' rest
  end.

End Answers.

(** A transport that plays a script: each call takes the next entry,
    whatever the request, and fails once the script is exhausted. *)
Record script := Script {
  replies : list str;
  streams : list chunk_stream
}.

Definition script_create (c : script) (rq : api_settings)
  : script * (exn + str) :=
  match replies c with
  | [] => (c, inl (TransportError (lit "script exhausted")))
  | r :: rest => (Script rest (streams c), inr r)
  end.

Definition script_create_stream (c : script) (rq : api_settings)
  : script * (exn + chunk_stream) :=
  match streams c with
  | [] => (c, inl (TransportError (lit "script exhausted")))
  | r :: rest => (Script (replies c) rest, inr r)
  end.

#[export] Instance script_client : Client script := {
  create := script_create;
  create_stream := script_create_stream
}.

(** The world a run starts from: no object yet, nothing printed, nothing
    sent. *)
Definition start {T : Type} (c : T) : world T :=
  World c (fun _ => Message [] []) O [] [].

(** Two distinct message objects at [0] and [1], as a caller would pass
    them. *)
Definition two_messages {T : Type} (c : T) (system user : str) : world T :=
  World c
    (<[1%nat := generate_user_message user]>
       (<[0%nat := generate_system_message system]>
          (fun _ => Message [] [])))
    2%nat [] [].

(** ** The conversation invariant *)

(** The objects [after] differ from the objects [before] at most in the
    content of the object that the last entry of [messages] refers to. *)
Definition rewrites_only_last (messages : list loc)
    (before after : loc -> message) : Prop :=
  (forall l, list.last messages <> Some l -> after l = before l)
  /\ (forall l, role (after l) = role (before l)).

(** Between the worlds [w] and [w'] only the trailing content was
    rewritten, and every request sent in between carried the list
    [messages] with its objects in such a state. *)
Definition conversation_kept {T : Type} (messages : list loc)
    (w w' : world T) : Prop :=
  rewrites_only_last messages (objects w) (objects w')
  /\ exists new,
       requests w' = requests w ++ new
       /\ Forall
            (fun rq =>
               exists h,
                 rewrites_only_last messages (objects w) h
                 /\ rq_messages rq = map h messages)
            new.

(** The message list [ms'] is the list [ms] up to the content of its last
    message: same length, same roles, same messages before the last. *)
Definition same_but_last_content (ms ms' : list message) : Prop :=
  length ms' = length ms
  /\ map role ms' = map role ms
  /\ removelast ms' = removelast ms.

(** The object the list ends with is not also an earlier entry of it. *)
Definition last_not_shared (messages : list loc) : Prop :=
  forall l, list.last messages = Some l -> ~ In l (removelast messages).

(** The conversation as a run leaves it and as it sent it: in the world
    [w'] the list [messages] is what it was in [w] up to the content of
    its last message, so was it in every request sent since [w], and no
    object but the one the list ends with has changed. *)
Definition conversation_unchanged {T : Type} (messages : list loc)
    (w w' : world T) : Prop :=
  same_but_last_content (render messages w) (render messages w')
  /\ (exists new,
        requests w' = requests w ++ new
        /\ Forall
             (fun rq =>
                same_but_last_content (render messages w) (rq_messages rq))
             new)
  /\ (forall l, list.last messages <> Some l -> objects w' l = objects w l).


(** ** Runs described by what the transport delivers *)

(** The lines [accumulate_response] appends to the conversation for one
    fragment. *)
Definition transcript (fragment : str) : str :=
  NL :: lit "Assistant:" ++ fragment
    ++ NL :: lit "User:Continue immediately after where you left off.".

(** The conversation each round starts from, first round first: the
    incoming one, then with the transcript of one more fragment each. *)
Fixpoint conversations (conversation : str) (fragments : list str)
  : list str :=
  match fragments with
  | [] => []
  | fragment :: rest =>
      conversation :: conversations (conversation ++ transcript fragment) rest
  end.

(** The content of the trailing message of a request. *)
Definition trailing_content (rq : api_settings) : option str :=
  option_map content (list.last (rq_messages rq)).

(** The line the [except] clause prints for [e], as it stands in
    [stdout]. *)
Definition error_line (e : exn) : str :=
  (lit "An error occurred while calling OpenAI API: " ++ exn_text e)
  ++ [NL].

(** The chunks of a streamed round that the generator forwards: the
    deltas that are neither absent nor empty. *)
Fixpoint yielded (response : list (option str)) : list str :=
  match response with
  | [] => []
  | Some (c :: value) :: rest => (c :: value) :: yielded rest
  | _ :: rest => yielded rest
  end.

(** The fragment of a streamed round: what the generator has put together
    when the round ends. *)
Definition round_fragment (response : list (option str)) : str :=
  concat (yielded response).

(** The stop marker occurs in the last of the fragments and in none
    before. *)
Fixpoint marker_ends (stop_sequence : str) (fragments : list str) : Prop :=
  match fragments with
  | [] => False
  | fragment :: rest =>
      match rest with
      | [] => PyStr.contains stop_sequence fragment = true
      | _ :: _ =>
          PyStr.contains stop_sequence fragment = false
          /\ marker_ends stop_sequence rest
      end
  end.

Section Deliveries.
Context {T : Type} `{Client T}.

(** Whatever it is asked, the client in state [c] answers the next
    buffered calls with the fragments [fragments], and is then in a state
    where [next] holds. *)
Fixpoint answers_then (next : T -> Prop) (c : T) (fragments : list str)
  : Prop :=
  match fragments with
  | [] => next c
  | fragment :: rest =>
      forall rq, exists c',
        create c rq = (c', inr fragment) /\ answers_then next c' rest
  end.

(** Whatever it is asked, the next buffered call of the client in state
    [c] raises [e]. *)
Definition fails (e : exn) (c : T) : Prop :=
  forall rq, exists c', create c rq = (c', inl e).

(** The client answers the fragments [fragments], and the call after them
    raises [e]. *)
Definition answers_then_fails (c : T) (fragments : list str) (e : exn)
  : Prop :=
  answers_then (fails e) c fragments.

(** Whatever it is asked, the client in state [c] answers the next
    streaming calls with the rounds [rounds], each a sequence of deltas
    that is delivered to its end. *)
Fixpoint streams_rounds (c : T) (rounds : list (list (option str)))
  : Prop :=
  match rounds with
  | [] => True
  | response :: rest =>
      forall rq, exists c',
        create_stream c rq = (c', inr (ChunkStream response None))
        /\ streams_rounds c' rest
  end.

End Deliveries.

(** * Properties *)

(** ** Python strings *)

Module PyStrFacts.
Import PyStr.

Lemma startswith_true (p s : str) :
  startswith p s = true <-> exists post, s = p ++ post.
Proof.
  revert s. induction p as [|a p IH]; intros s; simpl.
  - split; [intros _; exists s; reflexivity | reflexivity].
  - destruct s as [|b s].
    + split; [discriminate | intros [post Hpost]; discriminate].
    + rewrite andb_true_iff, N.eqb_eq, IH. split.
      * intros [-> [post ->]]. exists post. reflexivity.
      * intros [post Hpost]. injection Hpost as -> ->. eauto.
Qed.

Lemma startswith_app (p post : str) : startswith p (p ++ post) = true.
Proof. apply startswith_true. exists post. reflexivity. Qed.

(** [in] decides occurrence as a contiguous substring. *)
Lemma contains_true (sub s : str) :
  contains sub s = true <-> occurs sub s.
Proof.
  unfold occurs. induction s as [|c s IH].
  - simpl. rewrite orb_false_r, startswith_true. split.
    + intros [post Hpost]. exists [], post. exact Hpost.
    + intros [pre [post Hs]]. destruct pre; [|discriminate].
      exists post. exact Hs.
  - simpl. rewrite orb_true_iff, startswith_true, IH. split.
    + intros [[post Hpost] | [pre [post Hs]]].
      * exists [], post. exact Hpost.
      * exists (c :: pre), post. rewrite Hs. reflexivity.
    + intros [pre [post Hs]]. destruct pre as [|c' pre].
      * left. exists post. exact Hs.
      * right. injection Hs as _ Hs. exists pre, post. exact Hs.
Qed.

Lemma contains_false (sub s : str) :
  contains sub s = false <-> ~ occurs sub s.
Proof.
  rewrite <- contains_true. destruct (contains sub s); split;
    congruence.
Qed.

Lemma contains_app (pre sub post : str) :
  contains sub (pre ++ sub ++ post) = true.
Proof. apply contains_true. exists pre, post. reflexivity. Qed.

Lemma occurs_app_l (sub s t : str) : occurs sub s -> occurs sub (s ++ t).
Proof.
  intros [pre [post ->]]. exists pre, (post ++ t).
  rewrite <- !app_assoc. reflexivity.
Qed.

Lemma occurs_app_r (sub s t : str) : occurs sub t -> occurs sub (s ++ t).
Proof.
  intros [pre [post ->]]. exists (s ++ pre), post.
  rewrite <- !app_assoc. reflexivity.
Qed.

(** A single character occurs in a string iff it is one of its
    elements. *)
Lemma contains_char (c : char) (s : str) :
  contains [c] s = true <-> In c s.
Proof.
  rewrite contains_true. split.
  - intros [pre [post ->]]. apply in_or_app. right. left. reflexivity.
  - intros Hin. apply in_split in Hin as [pre [post ->]].
    exists pre, post. reflexivity.
Qed.

(** The two equations of the scan of [replace]. *)
Lemma replace_scan_skip (old new : str) (k : nat) (s : str) :
  replace_scan old new k s = replace_scan old new O (drop k s).
Proof.
  revert k. induction s as [|c s IH]; intros [|k]; try reflexivity.
  simpl replace_scan at 1. rewrite IH. reflexivity.
Qed.

Lemma replace_match (c : char) (old new rest : str) :
  replace ((c :: old) ++ rest) (c :: old) new
  = new ++ replace rest (c :: old) new.
Proof.
  unfold replace. change ((c :: old) ++ rest) with (c :: (old ++ rest)).
  simpl replace_scan at 1.
  rewrite N.eqb_refl, startswith_app. simpl.
  rewrite replace_scan_skip, drop_app_length. reflexivity.
Qed.

Lemma replace_no_match (c : char) (s old new : str) :
  old <> [] -> startswith old (c :: s) = false ->
  replace (c :: s) old new = c :: replace s old new.
Proof.
  intros Hold Hno. unfold replace. destruct old as [|a old]; [congruence|].
  simpl replace_scan at 1. simpl in Hno. rewrite Hno. reflexivity.
Qed.

Lemma replace_nil (old new : str) : old <> [] -> replace [] old new = [].
Proof. destruct old; [congruence | reflexivity]. Qed.

(** [strip] splits its argument into leading whitespace, the result and
    trailing whitespace, and the result neither starts nor ends with
    whitespace. *)
Lemma lstrip_split (s : str) :
  exists ws, s = ws ++ lstrip s /\ forallb isspace ws = true.
Proof.
  induction s as [|c s [ws [Hs Hws]]]; simpl.
  - exists []. split; reflexivity.
  - destruct (isspace c) eqn:Hc.
    + exists (c :: ws). simpl. rewrite Hc, Hws, <- Hs. split; reflexivity.
    + exists []. split; reflexivity.
Qed.

Lemma lstrip_head (s : str) :
  match lstrip s with
  | [] => True
  | c :: _ => isspace c = false
  end.
Proof.
  induction s as [|c s IH]; simpl; [exact I|].
  destruct (isspace c) eqn:Hc; [exact IH | exact Hc].
Qed.

Lemma lstrip_fixed (s : str) :
  match s with [] => True | c :: _ => isspace c = false end ->
  lstrip s = s.
Proof. destruct s as [|c s]; simpl; [reflexivity | intros ->; reflexivity]. Qed.

Lemma lstrip_idem (s : str) : lstrip (lstrip s) = lstrip s.
Proof. apply lstrip_fixed, lstrip_head. Qed.

Lemma rstrip_idem (s : str) : rstrip (rstrip s) = rstrip s.
Proof.
  unfold rstrip. rewrite rev_involutive, lstrip_idem. reflexivity.
Qed.

Lemma rstrip_split (s : str) :
  exists ws, s = rstrip s ++ ws /\ forallb isspace ws = true.
Proof.
  unfold rstrip. destruct (lstrip_split (rev s)) as [ws [Hs Hws]].
  exists (rev ws). split.
  - rewrite <- rev_app_distr, <- Hs, rev_involutive. reflexivity.
  - rewrite forallb_forall in *. intros c Hc. apply Hws.
    apply in_rev. exact Hc.
Qed.

(** Stripping on the right keeps a non-whitespace head in place. *)
Lemma rstrip_head (s : str) :
  match s with [] => True | c :: _ => isspace c = false end ->
  match rstrip s with [] => True | c :: _ => isspace c = false end.
Proof.
  destruct s as [|c s]; [intros _; exact I|]. intros Hc.
  destruct (rstrip_split (c :: s)) as [ws [Hs Hws]].
  destruct (rstrip (c :: s)) as [|c' r] eqn:Hr; [exact I|].
  injection Hs as -> _. exact Hc.
Qed.

Lemma strip_idem (s : str) : strip (strip s) = strip s.
Proof.
  unfold strip. rewrite (lstrip_fixed (rstrip (lstrip s))).
  - apply rstrip_idem.
  - apply rstrip_head, lstrip_head.
Qed.

(** [strip] returns a substring of its argument, between two runs of
    whitespace. *)
Lemma strip_split (s : str) :
  exists ws ws',
    s = ws ++ strip s ++ ws'
    /\ forallb isspace ws = true /\ forallb isspace ws' = true.
Proof.
  destruct (lstrip_split s) as [ws [Hs Hws]].
  destruct (rstrip_split (lstrip s)) as [ws' [Hs' Hws']].
  exists ws, ws'. unfold strip. rewrite <- Hs', <- Hs. auto.
Qed.

Lemma strip_occurs (sub s : str) : occurs sub (strip s) -> occurs sub s.
Proof.
  intros Hsub. destruct (strip_split s) as [ws [ws' [Hs _]]]. rewrite Hs.
  apply occurs_app_r, occurs_app_l, Hsub.
Qed.

(** The result of [strip] neither starts nor ends with whitespace. *)
Lemma strip_trimmed (s : str) :
  match strip s with [] => True | c :: _ => isspace c = false end
  /\ match rev (strip s) with [] => True | c :: _ => isspace c = false end.
Proof.
  split.
  - apply rstrip_head, lstrip_head.
  - unfold strip, rstrip. rewrite rev_involutive. apply lstrip_head.
Qed.

(** *** Removing a marker that is a run of one character *)

Lemma startswith_repeat_le (c : char) (k n : nat) (s : str) :
  (k <= n)%nat -> startswith (repeat c n) s = true ->
  startswith (repeat c k) s = true.
Proof.
  revert n s. induction k as [|k IH]; intros n s Hle Hn; [reflexivity|].
  destruct n as [|n]; [lia|]. destruct s as [|x s]; [discriminate|].
  simpl in *. apply andb_true_iff in Hn as [Hc Hn].
  rewrite Hc. simpl. apply (IH n); [lia | exact Hn].
Qed.

(** Where the text does not start with [k] copies of [c], neither does
    what is left of it once the runs of [S n] copies are removed. *)
Lemma replace_scan_run_head (c : char) (n k : nat) (s : str) :
  (k <= n)%nat -> startswith (repeat c k) s = false ->
  startswith (repeat c k) (replace_scan (repeat c (S n)) [] O s) = false.
Proof.
  revert k. induction s as [|x s IH]; intros k Hle Hk.
  - exact Hk.
  - destruct k as [|k]; [discriminate|].
    cbn [replace_scan].
    destruct (startswith (repeat c (S n)) (x :: s)) eqn:Hmatch.
    + rewrite (startswith_repeat_le c (S k) (S n)) in Hk;
        [discriminate | lia | exact Hmatch].
    + simpl in *. destruct (c =? x); [|reflexivity]. simpl in *.
      apply IH; [lia | exact Hk].
Qed.

(** After [replace], no run of [S n] copies of [c] is left. *)
Lemma replace_scan_run_clean (c : char) (n skip : nat) (s : str) :
  contains (repeat c (S n)) (replace_scan (repeat c (S n)) [] skip s)
  = false.
Proof.
  revert skip. induction s as [|x s IH]; intros skip; [reflexivity|].
  cbn [replace_scan]. destruct skip as [|skip]; [|apply IH].
  destruct (startswith (repeat c (S n)) (x :: s)) eqn:Hmatch.
  - cbn [app]. apply IH.
  - cbn [contains]. rewrite IH, orb_false_r.
    simpl in *. destruct (c =? x); [|reflexivity]. simpl in *.
    apply replace_scan_run_head; [lia | exact Hmatch].
Qed.

Lemma replace_run_clean (c : char) (n : nat) (s : str) :
  ~ occurs (repeat c (S n)) (replace s (repeat c (S n)) []).
Proof.
  apply contains_false. apply (replace_scan_run_clean c n O s).
Qed.

End PyStrFacts.

(** ** The accumulator *)

(** The three components of what [accumulate_response] returns. *)
Lemma accumulate_response_eq
    (current_response accumulated_response : str) (conversation_ongoing : bool)
    (conversation stop_sequence : str) :
  accumulate_response current_response accumulated_response
    conversation_ongoing conversation stop_sequence
  = (accumulated_response ++ current_response,
     if PyStr.contains stop_sequence current_response then false
     else conversation_ongoing,
     conversation ++ NL :: lit "Assistant:" ++ current_response
       ++ NL :: lit "User:Continue immediately after where you left off.").
Proof. reflexivity. Qed.

(** C1.  When [accumulate_response] is entered with the continuation flag
    true, the flag it returns is false exactly when the stop marker occurs
    as a substring of the current fragment; the returned flag is the same
    whatever text has been accumulated before, so a marker that only
    earlier fragments contain does not end the loop. *)
Theorem accumulate_response_flag
    (current_response accumulated_response conversation stop_sequence : str) :
  let flag accumulated :=
    (accumulate_response current_response accumulated true conversation
       stop_sequence).1.2 in
  (flag accumulated_response = false
   <-> PyStr.occurs stop_sequence current_response)
  /\ (forall earlier, flag earlier = flag accumulated_response)
  /\ (forall earlier,
        flag (earlier ++ stop_sequence) = true
        <-> ~ PyStr.occurs stop_sequence current_response).
Proof.
  intros flag.
  assert (Hflag : forall accumulated,
    flag accumulated
    = negb (PyStr.contains stop_sequence current_response)).
  { intros accumulated. unfold flag, accumulate_response. cbn [fst snd].
    destruct (PyStr.contains stop_sequence current_response); reflexivity. }
  rewrite <- PyStrFacts.contains_true.
  split; [|split].
  - rewrite Hflag.
    destruct (PyStr.contains stop_sequence current_response);
      split; simpl; congruence.
  - intros earlier. rewrite !Hflag. reflexivity.
  - intros earlier. rewrite Hflag, <- PyStrFacts.contains_true.
    destruct (PyStr.contains stop_sequence current_response); simpl; split.
    + discriminate.
    + intros Hn. destruct Hn. reflexivity.
    + intros _ Hn. discriminate.
    + reflexivity.
Qed.

(** C6.  Whatever the fragment and whether or not the marker was found,
    the conversation [accumulate_response] returns is the incoming one
    followed by the line ["\nAssistant:"], the fragment, and the line
    ["\nUser:Continue immediately after where you left off."]; so it
    contains the substrings ["\nAssistant:"] and ["Continue immediately
    after where you left off."]. *)
Theorem accumulate_response_conversation
    (current_response accumulated_response : str) (conversation_ongoing : bool)
    (conversation stop_sequence : str) :
  let conversation' :=
    (accumulate_response current_response accumulated_response
       conversation_ongoing conversation stop_sequence).2 in
  conversation'
  = conversation ++ (NL :: lit "Assistant:") ++ current_response
      ++ (NL :: lit "User:")
      ++ lit "Continue immediately after where you left off."
  /\ PyStr.contains (NL :: lit "Assistant:") conversation' = true
  /\ PyStr.contains (lit "Continue immediately after where you left off.")
       conversation' = true.
Proof.
  intros conversation'. unfold conversation'.
  rewrite accumulate_response_eq. cbn [snd].
  set (directive := lit "Continue immediately after where you left off.").
  assert (Heq :
    conversation ++ NL :: lit "Assistant:" ++ current_response
      ++ NL :: lit "User:Continue immediately after where you left off."
    = conversation ++ (NL :: lit "Assistant:") ++ current_response
        ++ (NL :: lit "User:") ++ directive) by reflexivity.
  rewrite Heq. split; [reflexivity|]. split.
  - apply PyStrFacts.contains_app.
  - apply PyStrFacts.contains_true.
    exists (conversation ++ (NL :: lit "Assistant:") ++ current_response
              ++ (NL :: lit "User:")), [].
    rewrite app_nil_r, <- !app_assoc. reflexivity.
Qed.

(** ** The streaming consumer filter *)

Lemma filter_step_dagger (count : nat) (chunk : str) :
  In dagger chunk ->
  filter_step count chunk
  = Filtered (count + 1) None (count + 1 =? 5)%nat.
Proof.
  intros Hin. unfold filter_step.
  destruct chunk as [|c chunk]; [destruct Hin|]. cbn [PyStr.truthy].
  apply PyStrFacts.contains_char in Hin. rewrite Hin.
  destruct (count + 1 =? 5)%nat; reflexivity.
Qed.

Lemma filter_step_plain (count : nat) (chunk : str) :
  chunk <> [] -> ~ In dagger chunk ->
  filter_step count chunk
  = Filtered O (Some (PyStr.mul [dagger] count ++ chunk)) false.
Proof.
  intros Hne Hin. unfold filter_step.
  destruct chunk as [|c chunk]; [congruence|]. cbn [PyStr.truthy].
  destruct (PyStr.contains [dagger] (c :: chunk)) eqn:Hc; [|reflexivity].
  apply PyStrFacts.contains_char in Hc. contradiction.
Qed.

Lemma filter_step_empty (count : nat) :
  filter_step count [] = Filtered count None false.
Proof. reflexivity. Qed.

(** While the loop runs the count stays below five: it starts at zero,
    grows by one, and the loop is left when it becomes five. *)
Lemma filter_step_count_bound (count : nat) (chunk : str) :
  (count < 5)%nat -> stopped (filter_step count chunk) = false ->
  (new_count (filter_step count chunk) < 5)%nat.
Proof.
  intros Hlt. unfold filter_step.
  destruct (PyStr.truthy chunk); [|simpl; lia].
  destruct (PyStr.contains [dagger] chunk); [|simpl; lia].
  destruct (count + 1 =? 5)%nat eqn:Hfive; simpl; [discriminate|].
  apply Nat.eqb_neq in Hfive. lia.
Qed.

(** C3.  On the chunks [U+2021 U+2021], [U+2021], ["X"] the filter prints
    nothing for the first two chunks, and on the third it prints two
    double daggers followed by ["X"]: the count grew by one per chunk, so
    one of the three withheld characters is lost and the text printed is
    not the three double daggers and ["X"] of the specification. *)
Theorem filter_chunks_split_run :
  filter_chunks 0 [[dagger; dagger]; [dagger]; lit "X"]
  = ([None; None; Some ([dagger; dagger] ++ lit "X")], O, false)
  /\ displayed (filter_chunks 0 [[dagger; dagger]; [dagger]; lit "X"]).1.1
     <> [dagger; dagger; dagger] ++ lit "X"
  /\ (let run :=
        generate_long_response 10 (lit "gpt-4o") 100 default_stop_sequence
          true
          (start
             (Script []
                [ChunkStream
                   [Some [dagger; dagger]; Some [dagger]; Some (lit "X")]
                   None;
                 ChunkStream [Some (lit " end"); Some default_stop_sequence]
                   None])) in
      (run.1, stdout run.2)
      = (Ok tt, [[dagger; dagger] ++ lit "X"; lit " end"])).
Proof. split; [reflexivity | split; [discriminate | reflexivity]]. Qed.

(** C4.  On the chunks of three double daggers, of two double daggers and
    ["tail"] the filter does not stop: after the two sentinel chunks the
    count is two, and on ["tail"] it prints two double daggers followed by
    ["tail"], where the specification has it print nothing. *)
Theorem filter_chunks_full_run :
  filter_chunks 0 [[dagger; dagger; dagger]; [dagger; dagger]; lit "tail"]
  = ([None; None; Some ([dagger; dagger] ++ lit "tail")], O, false)
  /\ displayed
       (filter_chunks 0
          [[dagger; dagger; dagger]; [dagger; dagger]; lit "tail"]).1.1
     <> []
  /\ (let run :=
        generate_long_response 10 (lit "gpt-4o") 100 default_stop_sequence
          true
          (start
             (Script []
                [ChunkStream
                   [Some [dagger; dagger; dagger]; Some [dagger; dagger];
                    Some (lit "tail")]
                   None])) in
      (run.1, stdout run.2) = (Ok tt, [[dagger; dagger] ++ lit "tail"])).
Proof. split; [reflexivity | split; [discriminate | reflexivity]]. Qed.

(** C5.  A chunk made of two double daggers raises the count by one, not
    by the two occurrences it holds; whatever the chunk of sentinel
    characters, the loop stops exactly when the count so raised is five:
    five double daggers in one chunk do not stop it. *)
Theorem filter_step_counts_chunks :
  new_count (filter_step 0 [dagger; dagger]) = 1%nat
  /\ count_occ N.eq_dec [dagger; dagger] dagger = 2%nat
  /\ (forall count, new_count (filter_step count [dagger; dagger])
                    = (count + 1)%nat)
  /\ (forall count, stopped (filter_step count [dagger; dagger])
                    = (count + 1 =? 5)%nat)
  /\ stopped (filter_step 0 default_stop_sequence) = false.
Proof.
  split; [reflexivity|]. split; [reflexivity|].
  split; [|split; [|reflexivity]]; intros count;
    rewrite filter_step_dagger by (left; reflexivity); reflexivity.
Qed.

(** C10.  A chunk that holds the double dagger together with other
    characters, met while the count is below five, prints nothing and
    raises the count by exactly one, and the loop breaks if that makes
    five; its other characters are lost, for the next plain chunk is
    printed after [count + 1] double daggers only. *)
Theorem filter_step_mixed_chunk (count : nat) (chunk : str) :
  (count < 5)%nat ->
  In dagger chunk ->
  (exists c, In c chunk /\ c <> dagger) ->
  printed (filter_step count chunk) = None
  /\ new_count (filter_step count chunk) = (count + 1)%nat
  /\ stopped (filter_step count chunk) = (count + 1 =? 5)%nat
  /\ forall next, next <> [] -> ~ In dagger next ->
       printed (filter_step (new_count (filter_step count chunk)) next)
       = Some (PyStr.mul [dagger] (count + 1) ++ next).
Proof.
  intros _ Hin _. rewrite filter_step_dagger by exact Hin.
  cbn [printed new_count stopped].
  split; [reflexivity|]. split; [reflexivity|]. split; [reflexivity|].
  intros next Hne Hplain. rewrite filter_step_plain by assumption.
  reflexivity.
Qed.

Lemma filter_step_mixed_chunk_witness :
  printed (filter_step 2 (lit "ab" ++ [dagger] ++ lit "c")) = None
  /\ new_count (filter_step 2 (lit "ab" ++ [dagger] ++ lit "c")) = 3%nat
  /\ stopped (filter_step 2 (lit "ab" ++ [dagger] ++ lit "c")) = false
  /\ forall next, next <> [] -> ~ In dagger next ->
       printed
         (filter_step
            (new_count (filter_step 2 (lit "ab" ++ [dagger] ++ lit "c")))
            next)
       = Some (PyStr.mul [dagger] (2 + 1) ++ next).
Proof.
  apply (filter_step_mixed_chunk 2 (lit "ab" ++ [dagger] ++ lit "c")).
  - lia.
  - simpl. tauto.
  - exists 97. split; [simpl; tauto | discriminate].
Defined.

(** Chunks without the double dagger go through the filter untouched. *)
Lemma filter_chunks_plain (chunks : list str) :
  Forall (fun chunk => chunk <> [] /\ ~ In dagger chunk) chunks ->
  lets_through chunks.
Proof.
  unfold lets_through. induction 1 as [|chunk chunks [Hne Hplain] _ IH].
  - reflexivity.
  - cbn [filter_chunks]. rewrite filter_step_plain by assumption.
    cbn [stopped new_count printed]. rewrite IH. reflexivity.
Qed.

(** The claim of C9 fails as it stands.  With the configured marker
    ["END"], which holds no double dagger, the chunk ["a" U+2021] is
    withheld and its ["a"] never printed, and five chunks of one double
    dagger stop the stream before ["END"] is delivered. *)
Lemma filter_gates_on_dagger_whatever_marker :
  PyStr.contains [dagger] (lit "END") = false
  /\ ~ lets_through [lit "a" ++ [dagger]; lit "END"]
  /\ (generate_long_response 5 (lit "gpt-4o") 100 (lit "END") true
        (start
           (Script []
              [ChunkStream [Some (lit "a" ++ [dagger]); Some (lit "END")]
                 None]))).2.(stdout)
     = [[dagger] ++ lit "END"]
  /\ filter_chunks 0
       [[dagger]; [dagger]; [dagger]; [dagger]; [dagger]; lit "END"]
     = ([None; None; None; None; None], 5%nat, true).
Proof.
  split; [reflexivity|]. split; [|split; reflexivity].
  unfold lets_through. discriminate.
Qed.

(** ** The conversation invariant *)

Section Invariant.
Context {T : Type} `{Client T}.

Variables (model : str) (messages : list loc) (max_tokens : Z)
          (stop_sequence : str).

Lemma rewrites_only_last_refl (h : loc -> message) :
  rewrites_only_last messages h h.
Proof. split; reflexivity. Qed.

Lemma rewrites_only_last_trans (h1 h2 h3 : loc -> message) :
  rewrites_only_last messages h1 h2 ->
  rewrites_only_last messages h2 h3 ->
  rewrites_only_last messages h1 h3.
Proof.
  intros [Hother12 Hrole12] [Hother23 Hrole23]. split.
  - intros l Hl. rewrite Hother23, Hother12 by exact Hl. reflexivity.
  - intros l. rewrite Hrole23, Hrole12. reflexivity.
Qed.

Lemma rewrites_only_last_insert (h : loc -> message) (l : loc) (v : str) :
  list.last messages = Some l ->
  rewrites_only_last messages h (<[l := Message (role (h l)) v]> h).
Proof.
  intros Hlast. split.
  - intros l' Hl'. apply fn_lookup_insert_ne. congruence.
  - intros l'. destruct (decide (l = l')) as [<- | Hne].
    + rewrite fn_lookup_insert. reflexivity.
    + rewrite fn_lookup_insert_ne by exact Hne. reflexivity.
Qed.

Lemma conversation_kept_refl (w : world T) : conversation_kept messages w w.
Proof.
  split; [apply rewrites_only_last_refl|].
  exists []. rewrite app_nil_r. split; [reflexivity | constructor].
Qed.

Lemma conversation_kept_trans (w1 w2 w3 : world T) :
  conversation_kept messages w1 w2 ->
  conversation_kept messages w2 w3 ->
  conversation_kept messages w1 w3.
Proof.
  intros [Hobj12 [new12 [Hrq12 Hnew12]]] [Hobj23 [new23 [Hrq23 Hnew23]]].
  split; [eapply rewrites_only_last_trans; eassumption|].
  exists (new12 ++ new23). split.
  - rewrite Hrq23, Hrq12, app_assoc. reflexivity.
  - apply Forall_app. split; [exact Hnew12|].
    eapply Forall_impl; [|exact Hnew23].
    intros rq [h [Hh Hrq]]. exists h. split; [|exact Hrq].
    eapply rewrites_only_last_trans; eassumption.
Qed.

Lemma conversation_kept_same (w w' : world T) :
  objects w' = objects w -> requests w' = requests w ->
  conversation_kept messages w w'.
Proof.
  intros Hobj Hrq. split; [rewrite Hobj; apply rewrites_only_last_refl|].
  exists []. rewrite app_nil_r. split; [exact Hrq | constructor].
Qed.

Lemma conversation_kept_log_error (e : exn) (w : world T) :
  conversation_kept messages w (log_error e w).
Proof. apply conversation_kept_same; reflexivity. Qed.

Lemma conversation_kept_print (s e : str) (w : world T) :
  conversation_kept messages w (print s e w).
Proof. apply conversation_kept_same; reflexivity. Qed.

Lemma conversation_kept_sent (c : T) (rq : api_settings) (w : world T) :
  rq_messages rq = render messages w ->
  conversation_kept messages w (sent c rq w).
Proof.
  intros Hrq. split; [apply rewrites_only_last_refl|].
  exists [rq]. split; [reflexivity|].
  constructor; [|constructor].
  exists (objects w). split; [apply rewrites_only_last_refl | exact Hrq].
Qed.

Lemma conversation_kept_set_last (v : str) (w w' : world T) :
  set_last_content messages v w = inr w' ->
  conversation_kept messages w w'.
Proof.
  unfold set_last_content.
  destruct (list.last messages) as [l|] eqn:Hlast; [|discriminate].
  intros [= <-]. split.
  - apply rewrites_only_last_insert, Hlast.
  - exists []. rewrite app_nil_r. split; [reflexivity | constructor].
Qed.

Lemma call_gpt_round_kept
    (accumulated_response : str) (conversation_ongoing : bool)
    (conversation : str) (w : world T) :
  conversation_kept messages w
    (call_gpt_round model messages max_tokens stop_sequence
       accumulated_response conversation_ongoing conversation w).2.
Proof.
  unfold call_gpt_round.
  destruct (create (client w) (buffered_settings model messages max_tokens w))
    as [c [e | current_response]].
  - cbn [snd]. eapply conversation_kept_trans;
      [|apply conversation_kept_log_error].
    apply conversation_kept_sent. reflexivity.
  - rewrite accumulate_response_eq.
    match goal with
    | |- context [set_last_content messages ?v ?w1] =>
        destruct (set_last_content messages v w1) as [e | w'] eqn:Hset
    end; cbn [snd].
    + eapply conversation_kept_trans;
        [|apply conversation_kept_log_error].
      apply conversation_kept_sent. reflexivity.
    + eapply conversation_kept_trans;
        [|eapply conversation_kept_set_last; exact Hset].
      apply conversation_kept_sent. reflexivity.
Qed.

Lemma call_gpt_loop_kept (fuel : nat)
    (accumulated_response : str) (conversation_ongoing : bool)
    (conversation : str) (w : world T) :
  conversation_kept messages w
    (call_gpt_loop model messages max_tokens stop_sequence fuel
       accumulated_response conversation_ongoing conversation w).2.
Proof.
  revert accumulated_response conversation_ongoing conversation w.
  induction fuel as [|fuel IH]; intros acc ongoing conv w;
    destruct ongoing; cbn [call_gpt_loop snd];
    try apply conversation_kept_refl.
  pose proof (call_gpt_round_kept acc true conv w) as Hround.
  destruct (call_gpt_round model messages max_tokens stop_sequence acc
              true conv w) as [[e | [[acc' ongoing'] conv']] w'];
    cbn [snd] in *; [exact Hround|].
  eapply conversation_kept_trans; [exact Hround | apply IH].
Qed.

Lemma call_gpt_kept (fuel : nat) (w : world T) :
  conversation_kept messages w
    (call_gpt model messages max_tokens stop_sequence fuel w).2.
Proof.
  unfold call_gpt. destruct (get_last_content messages w).
  - apply conversation_kept_refl.
  - apply call_gpt_loop_kept.
Qed.

Lemma gen_chunks_kept
    (round_end : str -> world T -> gen_event * gen_state * world T) :
  (forall current_response w,
      conversation_kept messages w (round_end current_response w).2) ->
  forall accumulated_response conversation_ongoing conversation
         current_response rest failure w,
    conversation_kept messages w
      (gen_chunks round_end accumulated_response conversation_ongoing
         conversation current_response rest failure w).2.
Proof.
  intros Hend acc ongoing conv cur rest failure.
  induction rest as [|value rest IH]; intros w; cbn [gen_chunks].
  - destruct failure as [e|]; [apply conversation_kept_log_error|].
    apply Hend.
  - destruct value as [value|]; [|apply IH].
    destruct (PyStr.truthy value); [apply conversation_kept_refl|].
    apply IH.
Qed.

Lemma gen_round_end_kept
    (loop : str -> bool -> str -> world T
            -> gen_event * gen_state * world T) :
  (forall accumulated_response conversation_ongoing conversation w,
      conversation_kept messages w
        (loop accumulated_response conversation_ongoing conversation w).2) ->
  forall accumulated_response conversation_ongoing conversation
         current_response w,
    conversation_kept messages w
      (gen_round_end messages stop_sequence loop accumulated_response
         conversation_ongoing conversation current_response w).2.
Proof.
  intros Hloop acc ongoing conv cur w. unfold gen_round_end.
  rewrite accumulate_response_eq.
  match goal with
  | |- context [set_last_content messages ?v w] =>
      destruct (set_last_content messages v w) as [e | w'] eqn:Hset
  end.
  - apply conversation_kept_log_error.
  - eapply conversation_kept_trans;
      [eapply conversation_kept_set_last; exact Hset | apply Hloop].
Qed.

Lemma gen_loop_kept (fuel : nat)
    (accumulated_response : str) (conversation_ongoing : bool)
    (conversation : str) (w : world T) :
  conversation_kept messages w
    (gen_loop model messages max_tokens stop_sequence fuel
       accumulated_response conversation_ongoing conversation w).2.
Proof.
  revert accumulated_response conversation_ongoing conversation w.
  induction fuel as [|fuel IH]; intros acc ongoing conv w;
    destruct ongoing; cbn [gen_loop snd];
    try apply conversation_kept_refl.
  destruct (create_stream (client w)
              (streaming_settings model messages max_tokens w))
    as [c [e | response]].
  - cbn [snd]. eapply conversation_kept_trans;
      [|apply conversation_kept_log_error].
    apply conversation_kept_sent. reflexivity.
  - apply (conversation_kept_trans _
             (sent c (streaming_settings model messages max_tokens w) w));
      [apply conversation_kept_sent; reflexivity|].
    apply gen_chunks_kept. intros cur w'.
    apply gen_round_end_kept. exact IH.
Qed.

Lemma gen_next_kept (fuel : nat) (g : gen_state) (w : world T) :
  conversation_kept messages w
    (gen_next model messages max_tokens stop_sequence fuel g w).2.
Proof.
  destruct g as [|acc ongoing conv|acc ongoing conv cur value rest failure|];
    cbn [gen_next].
  - destruct (get_last_content messages w).
    + apply conversation_kept_refl.
    + apply gen_loop_kept.
  - apply gen_loop_kept.
  - apply gen_chunks_kept. intros cur' w'.
    apply gen_round_end_kept. intros; apply gen_loop_kept.
  - apply conversation_kept_refl.
Qed.

Lemma gen_pulls_kept (fuel n : nat) (g : gen_state) (w : world T) :
  conversation_kept messages w
    (gen_pulls model messages max_tokens stop_sequence fuel n g w).2.
Proof.
  revert g w. induction n as [|n IH]; intros g w; cbn [gen_pulls].
  - apply conversation_kept_refl.
  - pose proof (gen_next_kept fuel g w) as Hnext.
    destruct (gen_next model messages max_tokens stop_sequence fuel g w)
      as [[event g'] w'].
    pose proof (IH g' w') as Hrest.
    destruct (gen_pulls model messages max_tokens stop_sequence fuel n g'
                w') as [[events g''] w''].
    cbn [snd] in *. eapply conversation_kept_trans; eassumption.
Qed.

Lemma consume_kept (fuel count : nat) (g : gen_state) (w : world T) :
  conversation_kept messages w
    (consume model messages max_tokens stop_sequence fuel count g w).2.
Proof.
  revert count g w. induction fuel as [|fuel IH]; intros count g w.
  - apply conversation_kept_refl.
  - cbn [consume].
    pose proof (gen_next_kept (S fuel) g w) as Hnext.
    destruct (gen_next model messages max_tokens stop_sequence (S fuel)
                g w) as [[event g'] w'].
    cbn [snd] in Hnext.
    destruct event as [chunk| |e|]; cbn [snd]; try exact Hnext.
    assert (Hprint : conversation_kept messages w
              (match printed (filter_step count chunk) with
               | Some text => print text [] w'
               | None => w'
               end)).
    { destruct (printed (filter_step count chunk)); [|exact Hnext].
      eapply conversation_kept_trans;
        [exact Hnext | apply conversation_kept_print]. }
    destruct (stopped (filter_step count chunk)); [exact Hprint|].
    eapply conversation_kept_trans; [exact Hprint | apply IH].
Qed.

Lemma removelast_map {A B : Type} (f : A -> B) (l : list A) :
  removelast (map f l) = map f (removelast l).
Proof.
  induction l as [|a [|b l] IH]; try reflexivity.
  change (f a :: removelast (map f (b :: l))
          = f a :: map f (removelast (b :: l))).
  rewrite IH. reflexivity.
Qed.

(** Read through the list, objects that differ only in the trailing
    content give the same messages up to the last content, when the
    trailing object is not shared with an earlier entry. *)
Lemma rewrites_only_last_render (h h' : loc -> message) :
  last_not_shared messages ->
  rewrites_only_last messages h h' ->
  same_but_last_content (map h messages) (map h' messages).
Proof.
  intros Hshared [Hother Hrole]. split; [|split].
  - rewrite !length_map. reflexivity.
  - rewrite !map_map. apply map_ext. intros l. apply Hrole.
  - rewrite !removelast_map. apply map_ext_in. intros l Hin.
    apply Hother. intros Hlast. exact (Hshared l Hlast Hin).
Qed.

Lemma conversation_kept_unchanged (w w' : world T) :
  last_not_shared messages ->
  conversation_kept messages w w' ->
  conversation_unchanged messages w w'.
Proof.
  intros Hshared [Hobj [new [Hrq Hnew]]]. split; [|split].
  - apply rewrites_only_last_render; assumption.
  - exists new. split; [exact Hrq|].
    eapply Forall_impl; [|exact Hnew].
    intros rq [h [Hh ->]]. apply rewrites_only_last_render; assumption.
  - apply Hobj.
Qed.

End Invariant.

(** C7.  In every run of [call_gpt], and in every run of
    [call_gpt_stream] -- under any number of calls of [next], and under
    the consumer loop of [generate_long_response] -- on a list whose
    trailing message object is not also an earlier entry: the messages
    sent to the transport in every round, and the messages the run leaves
    behind, are the initial messages up to the content of the trailing
    one; the list keeps its length and its roles, and every earlier
    message is unchanged. *)
Theorem drivers_rewrite_only_trailing_content
    {T : Type} `{Client T}
    (model : str) (messages : list loc) (max_tokens : Z)
    (stop_sequence : str) (fuel pulls count : nat) (w : world T) :
  last_not_shared messages ->
  conversation_unchanged messages w
    (call_gpt model messages max_tokens stop_sequence fuel w).2
  /\ conversation_unchanged messages w
       (gen_pulls model messages max_tokens stop_sequence fuel pulls
          GenCreated w).2
  /\ conversation_unchanged messages w
       (consume model messages max_tokens stop_sequence fuel count
          GenCreated w).2.
Proof.
  intros Hshared. split; [|split];
    apply conversation_kept_unchanged; try exact Hshared.
  - apply call_gpt_kept.
  - apply gen_pulls_kept.
  - apply consume_kept.
Qed.

(** ** Runs of [call_gpt] on given fragments *)

Section Rounds.
Context {T : Type} `{Client T}.

Variables (model : str) (messages : list loc) (max_tokens : Z)
          (stop_sequence : str).

Lemma call_gpt_loop_finished (fuel : nat)
    (accumulated_response conversation : str) (w : world T) :
  call_gpt_loop model messages max_tokens stop_sequence fuel
    accumulated_response false conversation w
  = (Ok (PyStr.strip
           (PyStr.strip
              (PyStr.replace accumulated_response stop_sequence []))),
     w).
Proof. destruct fuel; reflexivity. Qed.

(** A round in which the transport answers [fragment]. *)
Lemma call_gpt_round_answer
    (accumulated_response : str) (conversation_ongoing : bool)
    (conversation fragment : str) (c : T) (l : loc) (w : world T) :
  list.last messages = Some l ->
  create (client w) (buffered_settings model messages max_tokens w)
  = (c, inr fragment) ->
  exists w',
    call_gpt_round model messages max_tokens stop_sequence
      accumulated_response conversation_ongoing conversation w
    = (inr (accumulate_response fragment accumulated_response
              conversation_ongoing conversation stop_sequence),
       w')
    /\ client w' = c
    /\ requests w'
       = requests w ++ [buffered_settings model messages max_tokens w].
Proof.
  intros Hlast Hcreate. unfold call_gpt_round. rewrite Hcreate.
  rewrite accumulate_response_eq. unfold set_last_content.
  rewrite Hlast. eexists. split; [reflexivity|]. split; reflexivity.
Qed.

(** The loop on a transport that answers the fragments [earlier] and
    then [final], where [final] is the first to hold the marker. *)
Lemma call_gpt_loop_answers (earlier : list str) (final : str) :
  Forall (fun fragment => PyStr.contains stop_sequence fragment = false)
    earlier ->
  PyStr.contains stop_sequence final = true ->
  forall (fuel : nat) (accumulated_response conversation : str)
         (w : world T),
    messages <> [] ->
    answers (client w) (earlier ++ [final]) ->
    (length earlier < fuel)%nat ->
    exists w',
      call_gpt_loop model messages max_tokens stop_sequence fuel
        accumulated_response true conversation w
      = (Ok (PyStr.strip
               (PyStr.strip
                  (PyStr.replace
                     (accumulated_response ++ concat (earlier ++ [final]))
                     stop_sequence []))),
         w')
      /\ length (requests w')
         = (length (requests w) + length (earlier ++ [final]))%nat.
Proof.
  intros Hearlier Hfinal.
  induction Hearlier as [|fragment earlier Hfragment _ IH];
    intros fuel acc conv w Hne Hanswers Hfuel;
    (destruct fuel as [|fuel]; [simpl in Hfuel; lia|]);
    apply last_is_Some in Hne as Hlast; destruct Hlast as [l Hlast];
    cbn [app answers] in Hanswers;
    destruct (Hanswers (buffered_settings model messages max_tokens w))
      as [c [Hcreate Hrest]];
    destruct (call_gpt_round_answer acc true conv _ c l w Hlast Hcreate)
      as [w' [Hround [Hclient Hrequests]]];
    cbn [call_gpt_loop]; rewrite Hround, accumulate_response_eq.
  - rewrite Hfinal, call_gpt_loop_finished. exists w'. split.
    + cbn [app concat]. rewrite app_nil_r. reflexivity.
    + rewrite Hrequests, length_app. reflexivity.
  - rewrite Hfragment.
    destruct (IH fuel (acc ++ fragment)
                (conv ++ NL :: lit "Assistant:" ++ fragment
                   ++ NL :: lit "User:Continue immediately after where you left off.")
                w' Hne)
      as [w'' [Hloop Hcount]].
    + rewrite Hclient. exact Hrest.
    + simpl in Hfuel. lia.
    + exists w''. split.
      * rewrite Hloop. cbn [app concat]. rewrite <- app_assoc.
        reflexivity.
      * rewrite Hcount, Hrequests, !length_app. simpl. lia.
Qed.

(** What [call_gpt] returns on such a transport, and how many calls it
    makes. *)
Lemma call_gpt_answers (earlier : list str) (final : str) (fuel : nat)
    (w : world T) :
  messages <> [] ->
  answers (client w) (earlier ++ [final]) ->
  Forall (fun fragment => PyStr.contains stop_sequence fragment = false)
    earlier ->
  PyStr.contains stop_sequence final = true ->
  (length earlier < fuel)%nat ->
  exists w',
    call_gpt model messages max_tokens stop_sequence fuel w
    = (Ok (PyStr.strip
             (PyStr.strip
                (PyStr.replace (concat (earlier ++ [final]))
                   stop_sequence []))),
       w')
    /\ length (requests w')
       = (length (requests w) + length (earlier ++ [final]))%nat.
Proof.
  intros Hne Hanswers Hearlier Hfinal Hfuel. unfold call_gpt, get_last_content.
  apply last_is_Some in Hne as Hlast. destruct Hlast as [l ->].
  apply (call_gpt_loop_answers earlier final Hearlier Hfinal fuel []);
    assumption.
Qed.

End Rounds.

(** The scripted transport answers with its script. *)
Lemma script_answers (fragments more : list str)
    (streamed : list chunk_stream) :
  answers (Script (fragments ++ more) streamed) fragments.
Proof.
  induction fragments as [|fragment fragments IH]; [exact I|].
  intros rq. exists (Script (fragments ++ more) streamed).
  split; [reflexivity | exact IH].
Qed.

Lemma last_not_shared_two (a b : loc) : a <> b -> last_not_shared [a; b].
Proof.
  intros Hne l Hlast [Hin | []]. cbn in Hlast. congruence.
Qed.

(** C7 at a run of each kind: a system and a user message, three buffered
    rounds, and a streamed round pulled chunk by chunk. *)
Lemma drivers_rewrite_only_trailing_content_witness :
  let w :=
    two_messages
      (Script [lit "one "; lit "two "; lit "done" ++ default_stop_sequence]
         [ChunkStream [Some (lit "one "); None; Some (lit "two")] None;
          ChunkStream [Some default_stop_sequence] None])
      (lit "Be thorough.") user_prompt in
  conversation_unchanged [0; 1]%nat w
    (call_gpt (lit "gpt-4o") [0; 1]%nat 100 default_stop_sequence 4 w).2
  /\ conversation_unchanged [0; 1]%nat w
       (gen_pulls (lit "gpt-4o") [0; 1]%nat 100 default_stop_sequence 4 3
          GenCreated w).2
  /\ conversation_unchanged [0; 1]%nat w
       (consume (lit "gpt-4o") [0; 1]%nat 100 default_stop_sequence 4 0
          GenCreated w).2.
Proof.
  apply (drivers_rewrite_only_trailing_content (lit "gpt-4o") [0; 1]%nat 100
           default_stop_sequence 4 3 0).
  apply last_not_shared_two. discriminate.
Defined.

(** C8.  Let the transport answer, without failing, the fragments
    [earlier ++ [final]] -- [N] of them, [N >= 1] -- where the stop marker
    occurs in [final] and in none of [earlier].  Then [call_gpt], on a
    conversation with a trailing message, returns, and it has called the
    transport exactly [N] times. *)
Theorem call_gpt_calls_transport_N_times
    {T : Type} `{Client T}
    (model : str) (messages : list loc) (max_tokens : Z)
    (stop_sequence : str) (earlier : list str) (final : str) (fuel : nat)
    (w : world T) :
  messages <> [] ->
  answers (client w) (earlier ++ [final]) ->
  Forall (fun fragment => ~ PyStr.occurs stop_sequence fragment) earlier ->
  PyStr.occurs stop_sequence final ->
  (length (earlier ++ [final]) <= fuel)%nat ->
  exists out w',
    call_gpt model messages max_tokens stop_sequence fuel w = (Ok out, w')
    /\ length (requests w')
       = (length (requests w) + length (earlier ++ [final]))%nat.
Proof.
  intros Hne Hanswers Hearlier Hfinal Hfuel.
  destruct (call_gpt_answers model messages max_tokens stop_sequence
              earlier final fuel w Hne Hanswers)
    as [w' [Hrun Hcount]].
  - eapply Forall_impl; [|exact Hearlier].
    intros fragment. apply PyStrFacts.contains_false.
  - apply PyStrFacts.contains_true, Hfinal.
  - rewrite length_app in Hfuel. simpl in Hfuel. lia.
  - eexists. exists w'. split; [exact Hrun | exact Hcount].
Qed.

Lemma call_gpt_calls_transport_N_times_witness :
  let w :=
    two_messages
      (Script [lit "one "; lit "two "; lit "done" ++ default_stop_sequence]
         [])
      (system_prompt default_stop_sequence) user_prompt in
  exists out w',
    call_gpt (lit "gpt-4o") [0; 1]%nat 100 default_stop_sequence 3 w
    = (Ok out, w')
    /\ length (requests w')
       = (length (requests w)
          + length ([lit "one "; lit "two "]
                    ++ [lit "done" ++ default_stop_sequence]))%nat.
Proof.
  apply (call_gpt_calls_transport_N_times (lit "gpt-4o") [0; 1]%nat 100
           default_stop_sequence [lit "one "; lit "two "]
           (lit "done" ++ default_stop_sequence) 3).
  - discriminate.
  - apply (script_answers
             [lit "one "; lit "two "; lit "done" ++ default_stop_sequence]
             [] []).
  - repeat constructor; apply PyStrFacts.contains_false; reflexivity.
  - apply PyStrFacts.contains_true. reflexivity.
  - simpl. lia.
Defined.

(** The claim of C2 fails as it stands.  With the stop marker ["ab"] and
    a transport whose first answer is ["aabb"], [call_gpt] returns after
    one round, and what it returns is ["ab"]: removing the one occurrence
    of the marker brings its two halves together, so the text returned
    holds the stop marker. *)
Lemma call_gpt_output_holds_marker :
  let w :=
    two_messages (Script [lit "aabb"] [])
      (system_prompt (lit "ab")) user_prompt in
  answers (client w) [lit "aabb"]
  /\ PyStr.contains (lit "ab") (lit "aabb") = true
  /\ (call_gpt (lit "gpt-4o") [0; 1]%nat 100 (lit "ab") 1 w).1
     = Ok (lit "ab")
  /\ PyStr.contains (lit "ab") (lit "ab") = true.
Proof.
  split; [apply (script_answers [lit "aabb"] [] [])|]. repeat split.
Qed.

(** C2, amended.  Let the transport answer, without failing, the
    fragments [earlier ++ [final]], the stop marker occurring in [final]
    and in none of [earlier].  Then [call_gpt] returns the concatenation
    of all the fragments in order, with the occurrences of the marker
    removed by [replace] and then stripped: a text that neither starts
    nor ends with whitespace.  When the marker is a run of one repeated
    character, as the default marker is, the text returned holds no
    occurrence of it. *)
Theorem call_gpt_returns_cleaned_concatenation
    {T : Type} `{Client T}
    (model : str) (messages : list loc) (max_tokens : Z)
    (stop_sequence : str) (earlier : list str) (final : str) (fuel : nat)
    (w : world T) :
  messages <> [] ->
  answers (client w) (earlier ++ [final]) ->
  Forall (fun fragment => ~ PyStr.occurs stop_sequence fragment) earlier ->
  PyStr.occurs stop_sequence final ->
  (length (earlier ++ [final]) <= fuel)%nat ->
  exists out w',
    call_gpt model messages max_tokens stop_sequence fuel w = (Ok out, w')
    /\ out
       = PyStr.strip
           (PyStr.replace (concat (earlier ++ [final])) stop_sequence [])
    /\ match out with [] => True | c :: _ => PyStr.isspace c = false end
    /\ match rev out with [] => True | c :: _ => PyStr.isspace c = false end
    /\ forall c n,
         stop_sequence = repeat c (S n) -> ~ PyStr.occurs stop_sequence out.
Proof.
  intros Hne Hanswers Hearlier Hfinal Hfuel.
  destruct (call_gpt_answers model messages max_tokens stop_sequence
              earlier final fuel w Hne Hanswers)
    as [w' [Hrun _]].
  - eapply Forall_impl; [|exact Hearlier].
    intros fragment. apply PyStrFacts.contains_false.
  - apply PyStrFacts.contains_true, Hfinal.
  - rewrite length_app in Hfuel. simpl in Hfuel. lia.
  - rewrite PyStrFacts.strip_idem in Hrun.
    eexists. exists w'. split; [exact Hrun|]. split; [reflexivity|].
    split; [apply PyStrFacts.strip_trimmed|].
    split; [apply PyStrFacts.strip_trimmed|].
    intros c n -> Hout. apply PyStrFacts.strip_occurs in Hout.
    exact (PyStrFacts.replace_run_clean c n _ Hout).
Qed.

Lemma call_gpt_returns_cleaned_concatenation_witness :
  let w :=
    two_messages
      (Script [lit " one "; lit "two "; lit "done" ++ default_stop_sequence]
         [])
      (system_prompt default_stop_sequence) user_prompt in
  exists out w',
    call_gpt (lit "gpt-4o") [0; 1]%nat 100 default_stop_sequence 3 w
    = (Ok out, w')
    /\ out
       = PyStr.strip
           (PyStr.replace
              (concat ([lit " one "; lit "two "]
                       ++ [lit "done" ++ default_stop_sequence]))
              default_stop_sequence [])
    /\ match out with [] => True | c :: _ => PyStr.isspace c = false end
    /\ match rev out with [] => True | c :: _ => PyStr.isspace c = false end
    /\ forall c n,
         default_stop_sequence = repeat c (S n) ->
         ~ PyStr.occurs default_stop_sequence out.
Proof.
  apply (call_gpt_returns_cleaned_concatenation (lit "gpt-4o") [0; 1]%nat
           100 default_stop_sequence [lit " one "; lit "two "]
           (lit "done" ++ default_stop_sequence) 3).
  - discriminate.
  - apply (script_answers
             [lit " one "; lit "two "; lit "done" ++ default_stop_sequence]
             [] []).
  - repeat constructor; apply PyStrFacts.contains_false; reflexivity.
  - apply PyStrFacts.contains_true. reflexivity.
  - simpl. lia.
Defined.

(** ** The consumer loop on one streamed round

    What [generate_long_response] prints in streaming mode is what the
    filter prints on the chunks the generator yields.  Here for a round
    whose fragment holds the stop marker, so that the generator ends with
    it. *)

Section Streamed.
Context {T : Type} `{Client T}.

Variables (model : str) (messages : list loc) (max_tokens : Z)
          (stop_sequence : str).

Lemma gen_loop_finished (fuel : nat)
    (accumulated_response conversation : str) (w : world T) :
  gen_loop model messages max_tokens stop_sequence fuel
    accumulated_response false conversation w
  = (StopIteration, GenFinished, w).
Proof. destruct fuel; reflexivity. Qed.

(** The end of a round whose fragment holds the marker: the generator is
    exhausted, and nothing was printed or sent. *)
Lemma gen_round_end_final (fuel : nat) (l : loc)
    (accumulated_response conversation current_response : str)
    (w : world T) :
  list.last messages = Some l ->
  PyStr.contains stop_sequence current_response = true ->
  exists w',
    gen_round_end messages stop_sequence
      (gen_loop model messages max_tokens stop_sequence fuel)
      accumulated_response true conversation current_response w
    = (StopIteration, GenFinished, w')
    /\ stdout w' = stdout w.
Proof.
  intros Hlast Hmarker. unfold gen_round_end.
  rewrite accumulate_response_eq, Hmarker. unfold set_last_content.
  rewrite Hlast, gen_loop_finished. eexists. split; reflexivity.
Qed.

(** The loop on a generator [g] that is about to run the chunk loop of
    such a round over the chunks [chunks]. *)
Lemma consume_round (l : loc) (chunks : list str) :
  list.last messages = Some l ->
  Forall (fun chunk => chunk <> []) chunks ->
  forall (fuel count : nat) (g : gen_state) (rounds : nat -> nat)
         (accumulated_response conversation current_response : str)
         (w w0 : world T),
    (forall fuel,
        gen_next model messages max_tokens stop_sequence (S fuel) g w
        = gen_chunks
            (gen_round_end messages stop_sequence
               (gen_loop model messages max_tokens stop_sequence
                  (rounds fuel))
               accumulated_response true conversation)
            accumulated_response true conversation current_response
            (map Some chunks) None w0) ->
    PyStr.contains stop_sequence (current_response ++ concat chunks)
    = true ->
    (length chunks < fuel)%nat ->
    let run :=
      consume model messages max_tokens stop_sequence fuel count g w in
    run.1 = Ok tt
    /\ stdout run.2 = stdout w0 ++ omap id (filter_chunks count chunks).1.1.
Proof.
  intros Hlast Hchunks.
  induction Hchunks as [|chunk chunks Hchunk _ IH];
    intros fuel count g rounds acc conv cur w w0 Hnext Hmarker Hfuel;
    (destruct fuel as [|fuel]; [simpl in Hfuel; lia|]);
    cbn [consume]; rewrite Hnext; cbn [map gen_chunks].
  - cbn [concat] in Hmarker. rewrite app_nil_r in Hmarker.
    destruct (gen_round_end_final (rounds fuel) l acc conv cur w0 Hlast
                Hmarker) as [w' [-> Hout]].
    cbn [fst snd filter_chunks omap]. rewrite app_nil_r. auto.
  - destruct chunk as [|c chunk]; [congruence|]. cbn [PyStr.truthy].
    cbn [filter_chunks].
    destruct (filter_step count (c :: chunk)) as [count' text stop] eqn:Hstep.
    cbn [printed stopped new_count].
    assert (Hstopped : stop = true -> text = None).
    { intros ->. revert Hstep. unfold filter_step. cbn [PyStr.truthy].
      destruct (PyStr.contains [dagger] (c :: chunk));
        [destruct (count + 1 =? 5)%nat|]; congruence. }
    destruct stop.
    + rewrite (Hstopped eq_refl). cbn [fst snd omap]. rewrite app_nil_r.
      auto.
    + remember (match text with
                | Some text => print text [] w0
                | None => w0
                end) as w1 eqn:Hw1.
      destruct (IH fuel count'
                  (GenSuspended acc true conv cur (c :: chunk)
                     (map Some chunks) None)
                  S acc conv (cur ++ c :: chunk) w1 w1) as [Hok Hout].
      * intros fuel'. reflexivity.
      * rewrite <- app_assoc. exact Hmarker.
      * simpl in Hfuel. lia.
      * destruct (filter_chunks count' chunks) as [[out n] b] eqn:Hrest.
        cbn [fst snd] in *. split; [exact Hok|].
        transitivity (stdout w1 ++ omap id out); [exact Hout|]. rewrite Hw1.
        destruct text as [text|]; [|reflexivity].
        cbn [print stdout omap]. rewrite app_nil_r, <- app_assoc.
        reflexivity.
Qed.

(** The streaming branch on a transport whose first streamed answer is the
    chunks [chunks], their concatenation holding the stop marker: the loop
    ends, and it has printed what the filter prints on [chunks]. *)
Lemma consume_streamed_round (l : loc) (chunks : list str) (c : T)
    (fuel count : nat) (w : world T) :
  list.last messages = Some l ->
  create_stream (client w) (streaming_settings model messages max_tokens w)
  = (c, inr (ChunkStream (map Some chunks) None)) ->
  Forall (fun chunk => chunk <> []) chunks ->
  PyStr.contains stop_sequence (concat chunks) = true ->
  (length chunks < fuel)%nat ->
  let run :=
    consume model messages max_tokens stop_sequence fuel count GenCreated w in
  run.1 = Ok tt
  /\ stdout run.2 = stdout w ++ omap id (filter_chunks count chunks).1.1.
Proof.
  intros Hlast Hcreate Hchunks Hmarker Hfuel.
  apply (consume_round l chunks Hlast Hchunks fuel count GenCreated id []
           (content (objects w l)) [] w
           (sent c (streaming_settings model messages max_tokens w) w));
    [|exact Hmarker | exact Hfuel].
  intros fuel'. cbn [gen_next]. unfold get_last_content. rewrite Hlast.
  cbn [gen_loop]. rewrite Hcreate. reflexivity.
Qed.

End Streamed.

(** ** The filter and the configured marker *)

Lemma omap_id_Some {A : Type} (l : list A) : omap id (map Some l) = l.
Proof. induction l as [|a l IH]; [reflexivity|]. cbn. rewrite IH. reflexivity. Qed.

(** In streaming mode, on a transport that streams the chunks [chunks] in
    one round, none of them with a double dagger and their concatenation
    holding the configured marker: every chunk is printed, the marker
    with them. *)
Lemma generate_long_response_prints_marker
    {T : Type} `{Client T}
    (model : str) (max_tokens : Z) (stop_sequence : str)
    (chunks : list str) (c : T) (fuel : nat) (w : world T) :
  (forall rq,
      create_stream (client w) rq
      = (c, inr (ChunkStream (map Some chunks) None))) ->
  Forall (fun chunk => chunk <> [] /\ ~ In dagger chunk) chunks ->
  PyStr.occurs stop_sequence (concat chunks) ->
  (length chunks < fuel)%nat ->
  let run :=
    generate_long_response fuel model max_tokens stop_sequence true w in
  run.1 = Ok tt /\ stdout run.2 = stdout w ++ chunks.
Proof.
  intros Hcreate Hchunks Hmarker Hfuel. unfold generate_long_response.
  cbn [alloc negb].
  match goal with
  | |- context [consume _ ?ms _ _ _ _ _ ?w2] =>
      destruct (consume_streamed_round model ms max_tokens stop_sequence
                  (S (fresh w)) chunks c fuel 0 w2) as [Hok Hout]
  end.
  - reflexivity.
  - apply Hcreate.
  - eapply Forall_impl; [|exact Hchunks]. intros chunk [Hne _]. exact Hne.
  - apply PyStrFacts.contains_true, Hmarker.
  - exact Hfuel.
  - cbn zeta. split; [exact Hok|]. rewrite Hout.
    rewrite (filter_chunks_plain chunks Hchunks). cbn [fst snd stdout].
    rewrite omap_id_Some. reflexivity.
Qed.

(** C9, amended.  The filter looks for the double dagger and for five
    chunks holding it, never for [stop_sequence].  Let the configured
    marker hold no double dagger.  Then chunks without the double dagger
    are all printed as delivered and the loop does not break; every
    non-empty piece of the marker that arrives as a chunk is printed,
    after the pending double daggers, and does not stop the loop; and a
    streamed round of such chunks that holds the marker is printed whole
    by [generate_long_response], the marker with it. *)
Theorem filter_ignores_stop_sequence
    (stop_sequence : str) (chunks : list str) :
  ~ In dagger stop_sequence ->
  Forall (fun chunk => chunk <> [] /\ ~ In dagger chunk) chunks ->
  lets_through chunks
  /\ (forall count piece,
        piece <> [] -> PyStr.occurs piece stop_sequence ->
        filter_step count piece
        = Filtered O (Some (PyStr.mul [dagger] count ++ piece)) false)
  /\ (forall (T : Type) (client_T : Client T) (model : str) (max_tokens : Z)
             (c : T) (fuel : nat) (w : world T),
        (forall rq,
            create_stream (client w) rq
            = (c, inr (ChunkStream (map Some chunks) None))) ->
        PyStr.occurs stop_sequence (concat chunks) ->
        (length chunks < fuel)%nat ->
        let run :=
          generate_long_response fuel model max_tokens stop_sequence true w in
        run.1 = Ok tt /\ stdout run.2 = stdout w ++ chunks).
Proof.
  intros Hmarker Hchunks. split; [apply filter_chunks_plain, Hchunks|].
  split.
  - intros count piece Hne [pre [post Hpiece]].
    apply filter_step_plain; [exact Hne|].
    intros Hin. apply Hmarker. rewrite Hpiece.
    apply in_or_app. right. apply in_or_app. left. exact Hin.
  - intros T client_T model max_tokens c fuel w Hcreate Hoccurs Hfuel.
    apply (generate_long_response_prints_marker model max_tokens
             stop_sequence chunks c fuel w); assumption.
Qed.

Lemma filter_ignores_stop_sequence_witness :
  lets_through [lit "The "; lit "EN"; lit "D"]
  /\ (forall count piece,
        piece <> [] -> PyStr.occurs piece (lit "END") ->
        filter_step count piece
        = Filtered O (Some (PyStr.mul [dagger] count ++ piece)) false)
  /\ (forall (T : Type) (client_T : Client T) (model : str) (max_tokens : Z)
             (c : T) (fuel : nat) (w : world T),
        (forall rq,
            create_stream (client w) rq
            = (c,
               inr (ChunkStream (map Some [lit "The "; lit "EN"; lit "D"])
                      None))) ->
        PyStr.occurs (lit "END") (concat [lit "The "; lit "EN"; lit "D"]) ->
        (length [lit "The "; lit "EN"; lit "D"] < fuel)%nat ->
        let run :=
          generate_long_response fuel model max_tokens (lit "END") true w in
        run.1 = Ok tt
        /\ stdout run.2 = stdout w ++ [lit "The "; lit "EN"; lit "D"]).
Proof.
  apply (filter_ignores_stop_sequence (lit "END")
           [lit "The "; lit "EN"; lit "D"]).
  - simpl. intros [Hin | [Hin | [Hin | []]]]; discriminate.
  - repeat constructor; try discriminate;
      simpl; intros Hin; repeat destruct Hin as [Hin | Hin];
      try discriminate; exact Hin.
Defined.

(** * Further properties of the drivers *)

(** ** How a run of [call_gpt] can end *)

Section Outcomes.
Context {T : Type} `{Client T}.

Variables (model : str) (messages : list loc) (max_tokens : Z)
          (stop_sequence : str).

(** A round sends one request; it prints the error line when it raises
    and nothing otherwise. *)
Lemma call_gpt_round_effects
    (accumulated_response : str) (conversation_ongoing : bool)
    (conversation : str) (w : world T) :
  let round :=
    call_gpt_round model messages max_tokens stop_sequence
      accumulated_response conversation_ongoing conversation w in
  requests round.2
  = requests w ++ [buffered_settings model messages max_tokens w]
  /\ stdout round.2
     = stdout w ++ match round.1 with
                   | inl e => [error_line e]
                   | inr _ => []
                   end.
Proof.
  unfold call_gpt_round.
  destruct (create (client w) (buffered_settings model messages max_tokens w))
    as [c [e | current_response]].
  - split; reflexivity.
  - rewrite accumulate_response_eq. unfold set_last_content.
    destruct (list.last messages) as [l|]; cbn [fst snd];
      split; try reflexivity; cbn [set_objects sent stdout];
      rewrite app_nil_r; reflexivity.
Qed.

Lemma call_gpt_loop_outcomes (fuel : nat)
    (accumulated_response : str) (conversation_ongoing : bool)
    (conversation : str) (w : world T) :
  let run :=
    call_gpt_loop model messages max_tokens stop_sequence fuel
      accumulated_response conversation_ongoing conversation w in
  match run.1 with
  | Ok out =>
      stdout run.2 = stdout w /\ PyStr.strip out = out
      /\ (length (requests w) + (if conversation_ongoing then 1 else 0)
          <= length (requests run.2))%nat
  | Raise e =>
      stdout run.2 = stdout w ++ [error_line e]
      /\ (length (requests w) < length (requests run.2))%nat
  | OutOfFuel =>
      stdout run.2 = stdout w
      /\ length (requests run.2) = (length (requests w) + fuel)%nat
  end.
Proof.
  revert accumulated_response conversation_ongoing conversation w.
  induction fuel as [|fuel IH]; intros acc ongoing conv w;
    destruct ongoing; cbn [call_gpt_loop fst snd].
  - split; [reflexivity | lia].
  - split; [reflexivity|]. split; [apply PyStrFacts.strip_idem | lia].
  - pose proof (call_gpt_round_effects acc true conv w) as [Hrq Hout].
    destruct (call_gpt_round model messages max_tokens stop_sequence acc
                true conv w) as [[e | [[acc' ongoing'] conv']] w'];
      cbn [fst snd] in *.
    + split; [exact Hout|]. rewrite Hrq, length_app. simpl. lia.
    + specialize (IH acc' ongoing' conv' w'). cbn zeta in IH.
      rewrite app_nil_r in Hout.
      destruct (call_gpt_loop model messages max_tokens stop_sequence fuel
                  acc' ongoing' conv' w') as [[out | e |] w''];
        cbn [fst snd] in *; rewrite Hrq, length_app, Hout in *;
        simpl in *.
      * destruct IH as [Hstd [Hstrip Hlen]].
        split; [exact Hstd|]. split; [exact Hstrip|].
        destruct ongoing'; lia.
      * destruct IH as [Hstd Hlen]. split; [exact Hstd | lia].
      * destruct IH as [Hstd Hlen]. split; [exact Hstd | lia].
  - split; [reflexivity|]. split; [apply PyStrFacts.strip_idem | lia].
Qed.

(** X1.  However a run of [call_gpt] ends, for any transport: when it
    returns, the text is stripped, nothing was printed and the transport
    was called at least once; when it raises, either the list of messages
    is empty, the error is [IndexError] and nothing at all has happened,
    or a call was made and exactly the error line of the exception was
    printed; when the fuel runs out, nothing was printed and every unit
    of fuel went into one call. *)
Theorem call_gpt_outcomes (fuel : nat) (w : world T) :
  let run := call_gpt model messages max_tokens stop_sequence fuel w in
  match run.1 with
  | Ok out =>
      stdout run.2 = stdout w /\ PyStr.strip out = out
      /\ (length (requests w) < length (requests run.2))%nat
  | Raise e =>
      (messages = [] /\ e = IndexError /\ run.2 = w)
      \/ (messages <> []
          /\ stdout run.2 = stdout w ++ [error_line e]
          /\ (length (requests w) < length (requests run.2))%nat)
  | OutOfFuel =>
      stdout run.2 = stdout w
      /\ length (requests run.2) = (length (requests w) + fuel)%nat
  end.
Proof.
  unfold call_gpt, get_last_content.
  destruct (list.last messages) as [l|] eqn:Hlast.
  - assert (Hne : messages <> []) by (intros ->; discriminate).
    pose proof (call_gpt_loop_outcomes fuel [] true
                  (content (objects w l)) w) as Hloop.
    cbn zeta in *.
    destruct (call_gpt_loop model messages max_tokens stop_sequence fuel []
                true (content (objects w l)) w) as [[out | e |] w'];
      cbn [fst snd] in *.
    + destruct Hloop as [Hstd [Hstrip Hlen]]. repeat split; try assumption.
      lia.
    + right. destruct Hloop as [Hstd Hlen]. repeat split; assumption.
    + exact Hloop.
  - left. apply last_None in Hlast. repeat split. exact Hlast.
Qed.

Lemma last_map {A B : Type} (f : A -> B) (l : list A) :
  list.last (map f l) = option_map f (list.last l).
Proof.
  induction l as [|a [|b l] IH]; try reflexivity.
  change (list.last (map f (b :: l)) = option_map f (list.last (b :: l))).
  exact IH.
Qed.

Lemma trailing_content_buffered (l : loc) (w : world T) :
  list.last messages = Some l ->
  trailing_content (buffered_settings model messages max_tokens w)
  = Some (content (objects w l)).
Proof.
  intros Hlast. unfold trailing_content, buffered_settings, render.
  cbn [rq_messages]. rewrite last_map, Hlast. reflexivity.
Qed.

(** A round in which the transport answers [fragment], in full. *)
Lemma call_gpt_round_answered (l : loc)
    (accumulated_response : str) (conversation_ongoing : bool)
    (conversation fragment : str) (c : T) (w : world T) :
  list.last messages = Some l ->
  create (client w) (buffered_settings model messages max_tokens w)
  = (c, inr fragment) ->
  exists w',
    call_gpt_round model messages max_tokens stop_sequence
      accumulated_response conversation_ongoing conversation w
    = (inr (accumulated_response ++ fragment,
            (if PyStr.contains stop_sequence fragment then false
             else conversation_ongoing),
            conversation ++ transcript fragment),
       w')
    /\ client w' = c
    /\ stdout w' = stdout w
    /\ requests w'
       = requests w ++ [buffered_settings model messages max_tokens w]
    /\ content (objects w' l) = conversation ++ transcript fragment.
Proof.
  intros Hlast Hcreate. unfold call_gpt_round. rewrite Hcreate.
  rewrite accumulate_response_eq. unfold set_last_content.
  rewrite Hlast. eexists. split; [reflexivity|].
  cbn [set_objects sent client stdout requests objects].
  rewrite fn_lookup_insert. repeat split.
Qed.

(** The loop over fragments without the marker: it goes through one
    round for each, and is then at the head of the loop again. *)
Lemma call_gpt_loop_rounds (next : T -> Prop) (l : loc)
    (fragments : list str) :
  list.last messages = Some l ->
  Forall (fun fragment => PyStr.contains stop_sequence fragment = false)
    fragments ->
  forall (fuel : nat) (accumulated_response conversation : str)
         (w : world T),
    answers_then next (client w) fragments ->
    content (objects w l) = conversation ->
    exists w',
      call_gpt_loop model messages max_tokens stop_sequence
        (length fragments + fuel) accumulated_response true conversation w
      = call_gpt_loop model messages max_tokens stop_sequence fuel
          (accumulated_response ++ concat fragments) true
          (conversation ++ concat (map transcript fragments)) w'
      /\ next (client w')
      /\ stdout w' = stdout w
      /\ content (objects w' l)
         = conversation ++ concat (map transcript fragments)
      /\ exists new,
           requests w' = requests w ++ new
           /\ map trailing_content new
              = map Some (conversations conversation fragments).
Proof.
  intros Hlast Hfree.
  induction Hfree as [|fragment fragments Hfragment _ IH];
    intros fuel acc conv w Hanswers Hcontent.
  - exists w. cbn [length Nat.add concat map]. rewrite !app_nil_r.
    split; [reflexivity|]. split; [exact Hanswers|].
    split; [reflexivity|]. split; [exact Hcontent|].
    exists []. rewrite app_nil_r. split; reflexivity.
  - cbn [answers_then] in Hanswers.
    destruct (Hanswers (buffered_settings model messages max_tokens w))
      as [c [Hcreate Hrest]].
    destruct (call_gpt_round_answered l acc true conv fragment c w Hlast
                Hcreate)
      as [w1 [Hround [Hclient [Hstd [Hrq Hcontent1]]]]].
    rewrite <- Hclient in Hrest.
    destruct (IH fuel (acc ++ fragment) (conv ++ transcript fragment) w1
                Hrest Hcontent1)
      as [w' [Hloop [Hnext [Hstd' [Hcontent' [new [Hrq' Hnew]]]]]]].
    exists w'. cbn [length Nat.add call_gpt_loop].
    rewrite Hround, Hfragment, Hloop. cbn [concat map].
    rewrite <- !app_assoc.
    split; [reflexivity|]. split; [exact Hnext|].
    split; [congruence|].
    split; [rewrite Hcontent', <- app_assoc; reflexivity|].
    exists (buffered_settings model messages max_tokens w :: new).
    split; [rewrite Hrq', Hrq, <- app_assoc; reflexivity|].
    cbn [map conversations].
    rewrite (trailing_content_buffered l w Hlast), Hcontent, Hnew.
    reflexivity.
Qed.

Lemma length_conversations (conversation : str) (fragments : list str) :
  length (conversations conversation fragments) = length fragments.
Proof.
  revert conversation.
  induction fragments as [|fragment rest IH]; intros conversation;
    [reflexivity|].
  cbn [conversations length]. rewrite IH. reflexivity.
Qed.

Lemma answers_app_then (c : T) (fragments rest : list str) :
  answers c (fragments ++ rest) ->
  answers_then (fun c' => answers c' rest) c fragments.
Proof.
  revert c. induction fragments as [|fragment fragments IH]; intros c Hc.
  - exact Hc.
  - intros rq. destruct (Hc rq) as [c' [Hcreate Hrest]].
    exists c'. split; [exact Hcreate | apply IH, Hrest].
Qed.

Lemma marker_free_contains (fragments : list str) :
  Forall (fun fragment => ~ PyStr.occurs stop_sequence fragment) fragments ->
  Forall (fun fragment => PyStr.contains stop_sequence fragment = false)
    fragments.
Proof.
  intros Hfree. eapply Forall_impl; [|exact Hfree].
  intros fragment. apply PyStrFacts.contains_false.
Qed.

(** X2.  While no fragment holds the stop marker, [call_gpt] does not
    return: on a transport that answers the fragments [fragments], none
    with the marker, a run allowed at most that many rounds uses them all,
    one transport call for each, without returning, raising or
    printing. *)
Theorem call_gpt_keeps_calling
    (fragments : list str) (fuel : nat) (w : world T) :
  messages <> [] ->
  answers (client w) fragments ->
  Forall (fun fragment => ~ PyStr.occurs stop_sequence fragment) fragments ->
  (fuel <= length fragments)%nat ->
  exists w',
    call_gpt model messages max_tokens stop_sequence fuel w
    = (OutOfFuel, w')
    /\ length (requests w') = (length (requests w) + fuel)%nat
    /\ stdout w' = stdout w.
Proof.
  intros Hne Hanswers Hfree Hfuel.
  apply last_is_Some in Hne as [l Hlast].
  rewrite <- (take_drop fuel fragments) in Hanswers, Hfree.
  apply answers_app_then in Hanswers.
  apply Forall_app in Hfree as [Hfree _].
  destruct (call_gpt_loop_rounds _ l (take fuel fragments) Hlast
              (marker_free_contains _ Hfree) 0 [] (content (objects w l)) w
              Hanswers eq_refl)
    as [w' [Hloop [_ [Hstd [_ [new [Hrq Hnew]]]]]]].
  rewrite length_take, Nat.min_l, Nat.add_0_r in Hloop by exact Hfuel.
  exists w'. unfold call_gpt, get_last_content. rewrite Hlast, Hloop.
  split; [reflexivity|]. split; [|exact Hstd].
  rewrite Hrq, length_app. f_equal.
  rewrite <- (length_map trailing_content new), Hnew, length_map.
  rewrite length_conversations, length_take. lia.
Qed.

(** X3.  A transport failure is fatal and loses the text accumulated so
    far: on a transport that answers the fragments [fragments], none with
    the marker, and then raises [e], [call_gpt] raises [e] itself after
    one call more than there are fragments; it has printed the error line
    of [e] and nothing else, and the trailing message it leaves behind
    holds the transcript of every fragment received. *)
Theorem call_gpt_transport_failure
    (fragments : list str) (e : exn) (fuel : nat) (l : loc) (w : world T) :
  list.last messages = Some l ->
  answers_then_fails (client w) fragments e ->
  Forall (fun fragment => ~ PyStr.occurs stop_sequence fragment) fragments ->
  (length fragments < fuel)%nat ->
  exists w',
    call_gpt model messages max_tokens stop_sequence fuel w = (Raise e, w')
    /\ stdout w' = stdout w ++ [error_line e]
    /\ length (requests w')
       = (length (requests w) + S (length fragments))%nat
    /\ content (objects w' l)
       = content (objects w l) ++ concat (map transcript fragments).
Proof.
  intros Hlast Hanswers Hfree Hfuel.
  destruct (call_gpt_loop_rounds _ l fragments Hlast
              (marker_free_contains _ Hfree) (fuel - length fragments) []
              (content (objects w l)) w Hanswers eq_refl)
    as [w1 [Hloop [Hfails [Hstd [Hcontent [new [Hrq Hnew]]]]]]].
  replace (length fragments + (fuel - length fragments))%nat with fuel
    in Hloop by lia.
  destruct (fuel - length fragments)%nat as [|k] eqn:Hk; [lia|].
  destruct (Hfails (buffered_settings model messages max_tokens w1))
    as [c Hcreate].
  eexists. unfold call_gpt, get_last_content. rewrite Hlast, Hloop.
  cbn [call_gpt_loop]. unfold call_gpt_round. rewrite Hcreate.
  split; [reflexivity|].
  cbn [log_error print sent stdout requests objects].
  split; [rewrite Hstd; reflexivity|]. split; [|exact Hcontent].
  rewrite Hrq, !length_app. cbn [length].
  rewrite <- (length_map trailing_content new), Hnew, length_map.
  rewrite length_conversations. lia.
Qed.

Lemma conversations_app (conversation : str) (fragments rest : list str) :
  conversations conversation (fragments ++ rest)
  = conversations conversation fragments
    ++ conversations
         (conversation ++ concat (map transcript fragments)) rest.
Proof.
  revert conversation.
  induction fragments as [|fragment fragments IH]; intros conversation.
  - cbn [app conversations map concat]. rewrite app_nil_r. reflexivity.
  - cbn [app conversations map concat]. rewrite IH, <- app_assoc.
    reflexivity.
Qed.

(** X4.  The conversation grows by one transcript a round, the last round
    included: on a transport that answers the fragments
    [earlier ++ [final]], the marker first in [final], the trailing
    content of the request of each round is the initial content followed
    by the transcripts of the fragments received before that round, and
    the trailing message [call_gpt] leaves behind holds the transcripts of
    all the fragments. *)
Theorem call_gpt_conversation
    (earlier : list str) (final : str) (fuel : nat) (l : loc)
    (w : world T) :
  list.last messages = Some l ->
  answers (client w) (earlier ++ [final]) ->
  Forall (fun fragment => ~ PyStr.occurs stop_sequence fragment) earlier ->
  PyStr.occurs stop_sequence final ->
  (length earlier < fuel)%nat ->
  exists out w',
    call_gpt model messages max_tokens stop_sequence fuel w = (Ok out, w')
    /\ content (objects w' l)
       = content (objects w l)
         ++ concat (map transcript (earlier ++ [final]))
    /\ exists new,
         requests w' = requests w ++ new
         /\ map trailing_content new
            = map Some
                (conversations (content (objects w l)) (earlier ++ [final])).
Proof.
  intros Hlast Hanswers Hfree Hfinal Hfuel.
  apply answers_app_then in Hanswers.
  destruct (call_gpt_loop_rounds _ l earlier Hlast
              (marker_free_contains _ Hfree) (fuel - length earlier) []
              (content (objects w l)) w Hanswers eq_refl)
    as [w1 [Hloop [Hlast_round [Hstd [Hcontent [new [Hrq Hnew]]]]]]].
  replace (length earlier + (fuel - length earlier))%nat with fuel
    in Hloop by lia.
  destruct (fuel - length earlier)%nat as [|k] eqn:Hk; [lia|].
  destruct (Hlast_round (buffered_settings model messages max_tokens w1))
    as [c [Hcreate _]].
  destruct (call_gpt_round_answered l ([] ++ concat earlier) true
              (content (objects w l) ++ concat (map transcript earlier))
              final c w1 Hlast Hcreate)
    as [w' [Hround [_ [_ [Hrq' Hcontent']]]]].
  apply PyStrFacts.contains_true in Hfinal.
  eexists. exists w'. unfold call_gpt, get_last_content.
  rewrite Hlast, Hloop. cbn [call_gpt_loop].
  rewrite Hround, Hfinal, call_gpt_loop_finished.
  split; [reflexivity|]. split.
  - rewrite Hcontent', map_app, concat_app. cbn [map concat].
    rewrite app_nil_r, <- app_assoc. reflexivity.
  - exists (new ++ [buffered_settings model messages max_tokens w1]).
    split; [rewrite Hrq', Hrq, <- app_assoc; reflexivity|].
    rewrite map_app, Hnew, conversations_app, map_app.
    cbn [map conversations].
    rewrite (trailing_content_buffered l w1 Hlast), Hcontent.
    reflexivity.
Qed.

End Outcomes.

(** ** What the generator yields *)

Section Yields.
Context {T : Type} `{Client T}.

Variables (model : str) (messages : list loc) (max_tokens : Z)
          (stop_sequence : str).

(** The end of a round, written out. *)
Lemma gen_round_end_eq (l : loc)
    (loop : str -> bool -> str -> world T
            -> gen_event * gen_state * world T)
    (accumulated_response : str) (conversation_ongoing : bool)
    (conversation current_response : str) (w : world T) :
  list.last messages = Some l ->
  gen_round_end messages stop_sequence loop accumulated_response
    conversation_ongoing conversation current_response w
  = loop (accumulated_response ++ current_response)
      (if PyStr.contains stop_sequence current_response then false
       else conversation_ongoing)
      (conversation ++ transcript current_response)
      (set_objects
         (<[l := Message (role (objects w l))
                   (conversation ++ transcript current_response)]>
            (objects w))
         w).
Proof.
  intros Hlast. unfold gen_round_end. rewrite accumulate_response_eq.
  unfold set_last_content. rewrite Hlast. reflexivity.
Qed.

Lemma gen_pulls_S (fuel n : nat) (g : gen_state) (w : world T) :
  gen_pulls model messages max_tokens stop_sequence fuel (S n) g w
  = let '(event, g', w') :=
      gen_next model messages max_tokens stop_sequence fuel g w in
    let '(events, g'', w'') :=
      gen_pulls model messages max_tokens stop_sequence fuel n g' w' in
    (event :: events, g'', w'').
Proof. reflexivity. Qed.

(** Pulling through the chunks [response] of a round: the generator yields
    the non-empty ones, one a pull, and then goes on as the end of the
    round does.  [rest] describes the pulls from the end of the round
    on. *)
Lemma gen_pulls_chunks
    (rest : list gen_event * gen_state * world T -> Prop)
    (fuel n : nat) (accumulated_response conversation : str)
    (response : list (option str)) :
  forall (rounds : nat) (current_response : str) (g : gen_state)
         (w w0 : world T),
    gen_next model messages max_tokens stop_sequence fuel g w
    = gen_chunks
        (gen_round_end messages stop_sequence
           (gen_loop model messages max_tokens stop_sequence rounds)
           accumulated_response true conversation)
        accumulated_response true conversation current_response response
        None w0 ->
    (forall rounds' g' w',
        rounds' = rounds \/ rounds' = fuel ->
        gen_next model messages max_tokens stop_sequence fuel g' w'
        = gen_round_end messages stop_sequence
            (gen_loop model messages max_tokens stop_sequence rounds')
            accumulated_response true conversation
            (current_response ++ round_fragment response) w0 ->
        rest (gen_pulls model messages max_tokens stop_sequence fuel (S n)
                g' w')) ->
    exists res,
      rest res
      /\ gen_pulls model messages max_tokens stop_sequence fuel
           (S (length (yielded response) + n)) g w
         = (map Yield (yielded response) ++ res.1.1, res.1.2, res.2).
Proof.
  induction response as [|delta response IH];
    intros rounds cur g w w0 Hnext Hrest.
  - cbn [gen_chunks] in Hnext.
    exists (gen_pulls model messages max_tokens stop_sequence fuel (S n) g w).
    split.
    + apply (Hrest rounds); [left; reflexivity|].
      unfold round_fragment. cbn [yielded concat]. rewrite app_nil_r.
      exact Hnext.
    + cbn [yielded length Nat.add map app].
      destruct (gen_pulls model messages max_tokens stop_sequence fuel (S n)
                  g w) as [[events g'] w'].
      reflexivity.
  - destruct delta as [[|c value]|].
    + cbn [gen_chunks PyStr.truthy] in Hnext. cbn [yielded].
      apply (IH rounds cur g w w0 Hnext). exact Hrest.
    + cbn [gen_chunks PyStr.truthy] in Hnext.
      destruct (IH fuel (cur ++ c :: value)
                  (GenSuspended accumulated_response true conversation cur
                     (c :: value) response None)
                  w0 w0 eq_refl) as [res [Hres Hpulls]].
      * intros rounds' g' w' Hrounds Hnext'.
        apply (Hrest rounds'); [destruct Hrounds; right; assumption|].
        rewrite Hnext'. unfold round_fragment. cbn [yielded concat].
        rewrite <- app_assoc. reflexivity.
      * exists res. split; [exact Hres|].
        cbn [yielded length Nat.add].
        rewrite gen_pulls_S, Hnext, Hpulls. reflexivity.
    + cbn [gen_chunks] in Hnext. cbn [yielded].
      apply (IH rounds cur g w w0 Hnext). exact Hrest.
Qed.

Lemma gen_loop_finished_any (fuel : nat)
    (accumulated_response conversation : str) (w : world T) :
  gen_loop model messages max_tokens stop_sequence fuel
    accumulated_response false conversation w
  = (StopIteration, GenFinished, w).
Proof. destruct fuel; reflexivity. Qed.

Lemma gen_loop_streamed (fuel : nat)
    (accumulated_response conversation : str) (c : T)
    (response : list (option str)) (w : world T) :
  create_stream (client w) (streaming_settings model messages max_tokens w)
  = (c, inr (ChunkStream response None)) ->
  gen_loop model messages max_tokens stop_sequence (S fuel)
    accumulated_response true conversation w
  = gen_chunks
      (gen_round_end messages stop_sequence
         (gen_loop model messages max_tokens stop_sequence fuel)
         accumulated_response true conversation)
      accumulated_response true conversation [] response None
      (sent c (streaming_settings model messages max_tokens w) w).
Proof. intros Hcreate. cbn [gen_loop]. rewrite Hcreate. reflexivity. Qed.

(** Pulling through the rest of a round and the rounds [rounds] after it,
    the marker first in the last of them. *)
Lemma gen_pulls_rounds (l : loc) (fuel : nat)
    (rounds : list (list (option str))) :
  list.last messages = Some l ->
  forall (response : list (option str)) (left : nat) (g : gen_state)
         (accumulated_response conversation current_response : str)
         (w w0 : world T),
    gen_next model messages max_tokens stop_sequence fuel g w
    = gen_chunks
        (gen_round_end messages stop_sequence
           (gen_loop model messages max_tokens stop_sequence left)
           accumulated_response true conversation)
        accumulated_response true conversation current_response response
        None w0 ->
    (length rounds <= left)%nat ->
    (length rounds <= fuel)%nat ->
    streams_rounds (client w0) rounds ->
    marker_ends stop_sequence
      ((current_response ++ round_fragment response)
       :: map round_fragment rounds) ->
    exists w',
      gen_pulls model messages max_tokens stop_sequence fuel
        (S (length (yielded response)
            + length (concat (map yielded rounds)))) g w
      = (map Yield (yielded response)
         ++ map Yield (concat (map yielded rounds)) ++ [StopIteration],
         GenFinished, w')
      /\ stdout w' = stdout w0
      /\ length (requests w') = (length (requests w0) + length rounds)%nat
      /\ content (objects w' l)
         = conversation
           ++ concat
                (map transcript
                   ((current_response ++ round_fragment response)
                    :: map round_fragment rounds)).
Proof.
  intros Hlast.
  induction rounds as [|next rounds IH];
    intros response left g acc conv cur w w0 Hnext Hleft Hfuel Hstreams
      Hmarker.
  - cbn [map marker_ends] in Hmarker.
    destruct (gen_pulls_chunks
                (fun res =>
                   res.1.1 = [StopIteration] /\ res.1.2 = GenFinished
                   /\ stdout res.2 = stdout w0
                   /\ requests res.2 = requests w0
                   /\ content (objects res.2 l)
                      = conv ++ transcript (cur ++ round_fragment response))
                fuel 0 acc conv response left cur g w w0 Hnext)
      as [res [[Hevents [Hg [Hstd [Hrq Hcontent]]]] Hpulls]].
    + intros left' g' w' _ Hnext'.
      rewrite gen_pulls_S, Hnext', (gen_round_end_eq l) by exact Hlast.
      rewrite Hmarker, gen_loop_finished_any.
      cbn [gen_pulls fst snd set_objects stdout requests objects].
      rewrite fn_lookup_insert. repeat split.
    + exists res.2. cbn [map concat length app].
      rewrite Hpulls, Hevents, Hg, Hstd, Hrq, Hcontent, app_nil_r.
      rewrite Nat.add_0_r. repeat split.
  - cbn [map marker_ends] in Hmarker. destruct Hmarker as [Hfree Hmarker].
    cbn [length] in Hleft, Hfuel.
    destruct (gen_pulls_chunks
                (fun res =>
                   res.1.1
                   = map Yield (yielded next)
                     ++ map Yield (concat (map yielded rounds))
                     ++ [StopIteration]
                   /\ res.1.2 = GenFinished
                   /\ stdout res.2 = stdout w0
                   /\ length (requests res.2)
                      = (length (requests w0) + S (length rounds))%nat
                   /\ content (objects res.2 l)
                      = (conv ++ transcript (cur ++ round_fragment response))
                        ++ concat
                             (map transcript
                                (([] ++ round_fragment next)
                                 :: map round_fragment rounds)))
                fuel
                (length (yielded next)
                 + length (concat (map yielded rounds)))%nat
                acc conv response left cur g w w0 Hnext)
      as [res [[Hevents [Hg [Hstd [Hrq Hcontent]]]] Hpulls]].
    + intros left' g' w' Hleft' Hnext'.
      rewrite (gen_round_end_eq l) in Hnext' by exact Hlast.
      rewrite Hfree in Hnext'.
      destruct left' as [|left']; [destruct Hleft'; lia|].
      cbn [streams_rounds] in Hstreams.
      match type of Hnext' with
      | _ = gen_loop _ _ _ _ _ _ _ _ ?w1 =>
          destruct (Hstreams (streaming_settings model messages max_tokens
                                w1)) as [c [Hcreate Hrest]];
          rewrite (gen_loop_streamed left' _ _ c next w1 Hcreate) in Hnext'
      end.
      destruct (IH next left' g' _ _ [] w' _ Hnext') as
        [w'' [Hpulls' [Hstd' [Hrq' Hcontent']]]].
      * destruct Hleft'; lia.
      * lia.
      * exact Hrest.
      * exact Hmarker.
      * rewrite Hpulls'. cbn [fst snd]. split; [reflexivity|].
        split; [reflexivity|]. split; [exact Hstd'|].
        split; [|exact Hcontent'].
        rewrite Hrq'. cbn [sent requests set_objects].
        rewrite length_app. cbn [length]. lia.
    + exists res.2. cbn [map concat]. rewrite length_app, map_app.
      rewrite Hpulls, Hevents, Hg, <- !app_assoc.
      split; [reflexivity|]. split; [exact Hstd|].
      split; [rewrite Hrq; cbn [length]; lia|].
      rewrite Hcontent. cbn [app]. rewrite <- app_assoc. reflexivity.
Qed.

(** X5.  The generator forwards every non-empty chunk, in order, and
    nothing else.  On a transport that streams the rounds [rounds], the
    marker first in the fragment of the last round, successive calls of
    [next] yield the chunks of all the rounds that are neither absent nor
    empty, and the call after the last chunk ends the iteration; by then
    one request a round was sent, nothing was printed, and the trailing
    message holds the transcript of the fragment of every round. *)
Theorem call_gpt_stream_yields (l : loc)
    (rounds : list (list (option str))) (fuel : nat) (w : world T) :
  list.last messages = Some l ->
  streams_rounds (client w) rounds ->
  marker_ends stop_sequence (map round_fragment rounds) ->
  (length rounds <= fuel)%nat ->
  exists w',
    gen_pulls model messages max_tokens stop_sequence fuel
      (S (length (concat (map yielded rounds)))) GenCreated w
    = (map Yield (concat (map yielded rounds)) ++ [StopIteration],
       GenFinished, w')
    /\ stdout w' = stdout w
    /\ length (requests w') = (length (requests w) + length rounds)%nat
    /\ content (objects w' l)
       = content (objects w l)
         ++ concat (map transcript (map round_fragment rounds)).
Proof.
  intros Hlast Hstreams Hmarker Hfuel.
  destruct rounds as [|response rounds]; [destruct Hmarker|].
  destruct fuel as [|fuel]; [cbn [length] in Hfuel; lia|].
  cbn [streams_rounds] in Hstreams.
  destruct (Hstreams (streaming_settings model messages max_tokens w))
    as [c [Hcreate Hrest]].
  destruct (gen_pulls_rounds l (S fuel) rounds Hlast response fuel
              GenCreated [] (content (objects w l)) [] w
              (sent c (streaming_settings model messages max_tokens w) w))
    as [w' [Hpulls [Hstd [Hrq Hcontent]]]].
  - cbn [gen_next]. unfold get_last_content. rewrite Hlast.
    apply gen_loop_streamed, Hcreate.
  - cbn [length] in Hfuel. lia.
  - cbn [length] in Hfuel. lia.
  - exact Hrest.
  - exact Hmarker.
  - exists w'. cbn [map concat]. rewrite length_app, map_app, <- app_assoc.
    split; [exact Hpulls|]. split; [exact Hstd|].
    split; [|exact Hcontent].
    rewrite Hrq. cbn [sent requests]. rewrite length_app. cbn [length]. lia.
Qed.

(** Pulling through a round whose iterator raises [e] at its end. *)
Lemma gen_pulls_broken (e : exn) (fuel : nat)
    (accumulated_response conversation : str)
    (response : list (option str)) :
  forall (round_end : str -> world T -> gen_event * gen_state * world T)
         (current_response : str) (g : gen_state) (w w0 : world T),
    gen_next model messages max_tokens stop_sequence fuel g w
    = gen_chunks round_end accumulated_response true conversation
        current_response response (Some e) w0 ->
    gen_pulls model messages max_tokens stop_sequence fuel
      (S (length (yielded response))) g w
    = (map Yield (yielded response) ++ [GenRaise e], GenFinished,
       log_error e w0).
Proof.
  induction response as [|delta response IH];
    intros round_end cur g w w0 Hnext.
  - cbn [gen_chunks] in Hnext. cbn [yielded length].
    rewrite gen_pulls_S, Hnext. reflexivity.
  - destruct delta as [[|c value]|].
    + cbn [gen_chunks PyStr.truthy] in Hnext. cbn [yielded].
      apply (IH round_end cur g w w0 Hnext).
    + cbn [gen_chunks PyStr.truthy] in Hnext. cbn [yielded length].
      rewrite gen_pulls_S, Hnext.
      rewrite (IH _ (cur ++ c :: value)
                 (GenSuspended accumulated_response true conversation cur
                    (c :: value) response (Some e)) w0 w0 eq_refl).
      reflexivity.
    + cbn [gen_chunks] in Hnext. cbn [yielded].
      apply (IH round_end cur g w w0 Hnext).
Qed.

(** X6.  A stream that breaks is fatal, after what it has delivered was
    forwarded: if the first streamed answer raises [e] once its deltas
    [response] are delivered, successive calls of [next] yield the
    non-empty chunks of [response] and the call after them raises [e]; the
    error line of [e] is printed, one request was sent, and no message was
    rewritten. *)
Theorem call_gpt_stream_failure (l : loc) (response : list (option str))
    (e : exn) (c : T) (fuel : nat) (w : world T) :
  list.last messages = Some l ->
  create_stream (client w) (streaming_settings model messages max_tokens w)
  = (c, inr (ChunkStream response (Some e))) ->
  (0 < fuel)%nat ->
  exists w',
    gen_pulls model messages max_tokens stop_sequence fuel
      (S (length (yielded response))) GenCreated w
    = (map Yield (yielded response) ++ [GenRaise e], GenFinished, w')
    /\ stdout w' = stdout w ++ [error_line e]
    /\ requests w'
       = requests w ++ [streaming_settings model messages max_tokens w]
    /\ objects w' = objects w.
Proof.
  intros Hlast Hcreate Hfuel. destruct fuel as [|fuel]; [lia|].
  eexists. split.
  - eapply (gen_pulls_broken e (S fuel) [] (content (objects w l)) response
              _ [] GenCreated w).
    cbn [gen_next]. unfold get_last_content. rewrite Hlast.
    cbn [gen_loop]. rewrite Hcreate. reflexivity.
  - repeat split.
Qed.




End Yields.

(** ** What the filter displays *)

Lemma filter_step_stopped (count : nat) (chunk : str) :
  stopped (filter_step count chunk) = true ->
  new_count (filter_step count chunk) = 5%nat
  /\ printed (filter_step count chunk) = None
  /\ In dagger chunk.
Proof.
  unfold filter_step. destruct (PyStr.truthy chunk); [|discriminate].
  destruct (PyStr.contains [dagger] chunk) eqn:Hdagger; [|discriminate].
  apply PyStrFacts.contains_char in Hdagger.
  destruct (count + 1 =? 5)%nat eqn:Hfive; [|discriminate].
  apply Nat.eqb_eq in Hfive. intros _. cbn [new_count printed]. auto.
Qed.

(** X8.  The count of the filter never passes five, and the loop is left
    through [break] exactly when it reaches five: run from a count below
    five over any chunks, the loop ends with a count of at most five, it
    has broken if and only if the count is five, and unless it has broken
    it has consumed every chunk. *)
Theorem filter_chunks_count_bound (count : nat) (chunks : list str) :
  (count < 5)%nat ->
  let run := filter_chunks count chunks in
  (run.1.2 <= 5)%nat
  /\ (run.2 = true <-> run.1.2 = 5%nat)
  /\ (length run.1.1 <= length chunks)%nat
  /\ (run.2 = false -> length run.1.1 = length chunks).
Proof.
  revert count. induction chunks as [|chunk chunks IH]; intros count Hcount.
  - cbn. repeat split; try lia; try discriminate.
  - cbn [filter_chunks].
    destruct (stopped (filter_step count chunk)) eqn:Hstop.
    + destruct (filter_step_stopped count chunk Hstop) as [Hfive _].
      cbn [fst snd length]. rewrite Hfive.
      repeat split; try lia; try discriminate.
    + pose proof (filter_step_count_bound count chunk Hcount Hstop) as Hnew.
      specialize (IH _ Hnew). cbn zeta in IH.
      destruct (filter_chunks (new_count (filter_step count chunk)) chunks)
        as [[out n] b].
      cbn [fst snd length] in *.
      destruct IH as [Hn [Hb [Hlen Hall]]].
      repeat split; try lia; try apply Hb.
      intros Hfalse. rewrite (Hall Hfalse). reflexivity.
Qed.

Lemma filter_chunks_count_bound_witness :
  let run :=
    filter_chunks 3
      [[dagger]; lit "a"; [dagger; dagger]; [dagger]; [dagger]; [dagger];
       [dagger]; lit "never consumed"] in
  (run.1.2 <= 5)%nat
  /\ (run.2 = true <-> run.1.2 = 5%nat)
  /\ (length run.1.1
      <= length
           [[dagger]; lit "a"; [dagger; dagger]; [dagger]; [dagger];
            [dagger]; [dagger]; lit "never consumed"])%nat
  /\ (run.2 = false ->
      length run.1.1
      = length
          [[dagger]; lit "a"; [dagger; dagger]; [dagger]; [dagger];
           [dagger]; [dagger]; lit "never consumed"]).
Proof.
  apply (filter_chunks_count_bound 3
           [[dagger]; lit "a"; [dagger; dagger]; [dagger]; [dagger];
            [dagger]; [dagger]; lit "never consumed"]).
  lia.
Defined.

Lemma mul_dagger (k : nat) : PyStr.mul [dagger] k = repeat dagger k.
Proof.
  unfold PyStr.mul. induction k as [|k IH]; [reflexivity|].
  cbn [repeat concat app]. rewrite IH. reflexivity.
Qed.

(** Five double daggers do not start where fewer than five are followed
    by another character. *)
Lemma startswith_marker_run (k : nat) (x : char) (s : str) :
  (k < 5)%nat -> x <> dagger ->
  PyStr.startswith default_stop_sequence (repeat dagger k ++ x :: s)
  = false.
Proof.
  intros Hk Hx. assert (Hneq : (dagger =? x) = false).
  { apply N.eqb_neq. congruence. }
  unfold default_stop_sequence.
  do 5 (destruct k as [|k];
        [cbn [repeat app PyStr.startswith];
         rewrite ?N.eqb_refl, Hneq; reflexivity|]).
  lia.
Qed.

Lemma contains_marker_plain (chunk rest : str) :
  ~ In dagger chunk ->
  PyStr.contains default_stop_sequence (chunk ++ rest)
  = PyStr.contains default_stop_sequence rest.
Proof.
  induction chunk as [|x chunk IH]; intros Hplain; [reflexivity|].
  assert (Hstart :
    PyStr.startswith default_stop_sequence (x :: chunk ++ rest) = false).
  { apply (startswith_marker_run 0 x (chunk ++ rest)); [lia|].
    intros ->. apply Hplain. left. reflexivity. }
  cbn [app PyStr.contains]. rewrite Hstart, IH; [reflexivity|].
  intros Hin. apply Hplain. right. exact Hin.
Qed.

Lemma contains_marker_run (k : nat) (x : char) (s : str) :
  (k < 5)%nat -> x <> dagger ->
  PyStr.contains default_stop_sequence (repeat dagger k ++ x :: s)
  = PyStr.contains default_stop_sequence (x :: s).
Proof.
  intros Hk Hx. induction k as [|k IH]; [reflexivity|].
  change (repeat dagger (S k) ++ x :: s)
    with (dagger :: (repeat dagger k ++ x :: s)).
  cbn [PyStr.contains].
  change (dagger :: (repeat dagger k ++ x :: s))
    with (repeat dagger (S k) ++ x :: s).
  rewrite (startswith_marker_run (S k) x s Hk Hx), IH by lia. reflexivity.
Qed.

(** Every text the filter prints is a run of fewer than five double
    daggers followed by a non-empty chunk without double dagger. *)
Lemma filter_chunks_printed (chunks : list str) (count : nat) :
  (count < 5)%nat ->
  Forall
    (fun text =>
       exists k chunk,
         (k < 5)%nat /\ chunk <> [] /\ ~ In dagger chunk
         /\ text = repeat dagger k ++ chunk)
    (omap id (filter_chunks count chunks).1.1).
Proof.
  revert count. induction chunks as [|chunk chunks IH]; intros count Hcount;
    [constructor|].
  cbn [filter_chunks].
  destruct (stopped (filter_step count chunk)) eqn:Hstop.
  - destruct (filter_step_stopped count chunk Hstop) as [_ [-> _]].
    constructor.
  - pose proof (filter_step_count_bound count chunk Hcount Hstop) as Hnew.
    specialize (IH _ Hnew).
    destruct (filter_chunks (new_count (filter_step count chunk)) chunks)
      as [[out n] b].
    cbn [fst snd] in *.
    destruct (printed (filter_step count chunk)) as [text|] eqn:Hprinted;
      [|exact IH].
    cbn [omap]. constructor; [|exact IH].
    revert Hprinted. unfold filter_step.
    destruct chunk as [|c chunk]; [discriminate|]. cbn [PyStr.truthy].
    destruct (PyStr.contains [dagger] (c :: chunk)) eqn:Hdagger.
    + destruct (count + 1 =? 5)%nat; discriminate.
    + intros [= <-]. exists count, (c :: chunk).
      split; [exact Hcount|]. split; [discriminate|]. split.
      * intros Hin. apply PyStrFacts.contains_char in Hin. congruence.
      * rewrite mul_dagger. reflexivity.
Qed.

(** Such texts put together hold no run of five double daggers. *)
Lemma marker_not_in_printed (texts : list str) :
  Forall
    (fun text =>
       exists k chunk,
         (k < 5)%nat /\ chunk <> [] /\ ~ In dagger chunk
         /\ text = repeat dagger k ++ chunk)
    texts ->
  PyStr.contains default_stop_sequence (concat texts) = false.
Proof.
  intros Hprinted.
  induction Hprinted as [|text texts [k [chunk [Hk [Hne [Hplain ->]]]]] _ IH];
    [reflexivity|].
  cbn [concat]. rewrite <- app_assoc.
  destruct chunk as [|x chunk]; [congruence|].
  change ((x :: chunk) ++ concat texts) with (x :: (chunk ++ concat texts)).
  rewrite contains_marker_run;
    [|exact Hk | intros ->; apply Hplain; left; reflexivity].
  change (x :: (chunk ++ concat texts)) with ((x :: chunk) ++ concat texts).
  rewrite contains_marker_plain by exact Hplain. exact IH.
Qed.

(** X9.  The default marker never reaches the display: run from a count
    below five over any chunks, however the double daggers are spread
    over them, the texts the filter prints, put together, hold no run of
    five double daggers. *)
Theorem filter_never_displays_marker (count : nat) (chunks : list str) :
  (count < 5)%nat ->
  ~ PyStr.occurs default_stop_sequence
      (displayed (filter_chunks count chunks).1.1).
Proof.
  intros Hcount. apply PyStrFacts.contains_false. unfold displayed.
  apply marker_not_in_printed, filter_chunks_printed, Hcount.
Qed.

Lemma filter_never_displays_marker_witness :
  ~ PyStr.occurs default_stop_sequence
      (displayed
         (filter_chunks 4
            [lit "so"; [dagger; dagger; dagger]; [dagger; dagger];
             lit "tail"; default_stop_sequence; lit " end"]).1.1).
Proof.
  apply (filter_never_displays_marker 4
           [lit "so"; [dagger; dagger; dagger]; [dagger; dagger];
            lit "tail"; default_stop_sequence; lit " end"]).
  lia.
Defined.

(** ** [generate_long_response] as a whole *)

Section Program.
Context {T : Type} `{Client T}.

Variables (model : str) (max_tokens : Z) (stop_sequence : str).

(** The consumer loop on a generator about to run the chunk loop over
    chunks on which the filter breaks: the loop ends there, and the
    generator is left where it is. *)
Lemma consume_round_break (messages : list loc) (chunks : list str)
    (more : list (option str)) (failure : option exn) :
  Forall (fun chunk => chunk <> []) chunks ->
  forall (fuel count : nat) (g : gen_state) (rounds : nat -> nat)
         (accumulated_response conversation current_response : str)
         (w w0 : world T),
    (forall fuel,
        gen_next model messages max_tokens stop_sequence (S fuel) g w
        = gen_chunks
            (gen_round_end messages stop_sequence
               (gen_loop model messages max_tokens stop_sequence
                  (rounds fuel))
               accumulated_response true conversation)
            accumulated_response true conversation current_response
            (map Some chunks ++ more) failure w0) ->
    (filter_chunks count chunks).2 = true ->
    (length chunks <= fuel)%nat ->
    let run :=
      consume model messages max_tokens stop_sequence fuel count g w in
    run.1 = Ok tt
    /\ stdout run.2 = stdout w0 ++ omap id (filter_chunks count chunks).1.1
    /\ objects run.2 = objects w0
    /\ requests run.2 = requests w0.
Proof.
  intros Hchunks.
  induction Hchunks as [|chunk chunks Hchunk _ IH];
    intros fuel count g rounds acc conv cur w w0 Hnext Hbreak Hfuel;
    [discriminate|].
  destruct fuel as [|fuel]; [simpl in Hfuel; lia|].
  cbn [consume]. rewrite Hnext. cbn [map app gen_chunks].
  destruct chunk as [|c chunk]; [congruence|]. cbn [PyStr.truthy].
  cbn [filter_chunks] in *.
  destruct (filter_step count (c :: chunk)) as [count' text stop] eqn:Hstep.
  cbn [printed stopped new_count] in *.
  destruct stop.
  - assert (Htext : text = None).
    { pose proof (filter_step_stopped count (c :: chunk)) as Hstopped.
      rewrite Hstep in Hstopped. apply Hstopped. reflexivity. }
    rewrite Htext. cbn [fst snd omap]. rewrite app_nil_r. auto.
  - remember (match text with
              | Some text => print text [] w0
              | None => w0
              end) as w1 eqn:Hw1.
    destruct (filter_chunks count' chunks) as [[out n] b] eqn:Hrest.
    cbn [fst snd] in *.
    destruct (IH fuel count'
                (GenSuspended acc true conv cur (c :: chunk)
                   (map Some chunks ++ more) failure)
                S acc conv (cur ++ c :: chunk) w1 w1)
      as [Hok [Hout [Hobj Hrq]]].
    + intros fuel'. reflexivity.
    + rewrite Hrest. exact Hbreak.
    + simpl in Hfuel. lia.
    + rewrite Hrest in Hout. cbn [fst snd] in Hout.
      split; [exact Hok|]. split; [|split].
      * transitivity (stdout w1 ++ omap id out); [exact Hout|].
        rewrite Hw1. destruct text as [text|]; [|reflexivity].
        cbn [print stdout omap]. rewrite app_nil_r, <- app_assoc.
        reflexivity.
      * transitivity (objects w1); [exact Hobj|].
        rewrite Hw1. destruct text; reflexivity.
      * transitivity (requests w1); [exact Hrq|].
        rewrite Hw1. destruct text; reflexivity.
Qed.

(** X10.  When the filter breaks, the round is abandoned where it is.  In
    streaming mode, on a transport whose first streamed answer starts
    with the chunks [chunks], on which the filter breaks,
    [generate_long_response] returns whatever follows in the stream; it
    has printed what the filter prints on [chunks], it has sent one
    request, and the user message still holds the prompt alone: the
    round was never recorded in the conversation. *)
Theorem generate_long_response_break
    (chunks : list str) (more : list (option str)) (failure : option exn)
    (c : T) (fuel : nat) (w : world T) :
  (forall rq,
      create_stream (client w) rq
      = (c, inr (ChunkStream (map Some chunks ++ more) failure))) ->
  Forall (fun chunk => chunk <> []) chunks ->
  (filter_chunks 0 chunks).2 = true ->
  (length chunks <= fuel)%nat ->
  let run :=
    generate_long_response fuel model max_tokens stop_sequence true w in
  run.1 = Ok tt
  /\ stdout run.2 = stdout w ++ omap id (filter_chunks 0 chunks).1.1
  /\ length (requests run.2) = S (length (requests w))
  /\ objects run.2 (S (fresh w)) = generate_user_message user_prompt.
Proof.
  intros Hcreate Hchunks Hbreak Hfuel. unfold generate_long_response.
  cbn [alloc negb].
  match goal with
  | |- context [consume _ ?ms _ _ _ _ _ ?w2] =>
      destruct (consume_round_break ms chunks more failure Hchunks fuel 0
                  GenCreated id [] user_prompt [] w2
                  (sent c (streaming_settings model ms max_tokens w2) w2))
        as [Hok [Hout [Hobj Hrq]]]
  end.
  - intros fuel'. cbn [gen_next]. unfold get_last_content.
    cbn [list.last objects]. rewrite fn_lookup_insert.
    cbn [content generate_user_message gen_loop client].
    rewrite Hcreate. reflexivity.
  - exact Hbreak.
  - exact Hfuel.
  - cbn zeta. split; [exact Hok|]. split; [exact Hout|].
    split; [rewrite Hrq; cbn [sent requests]; rewrite length_app;
            cbn [length]; lia|].
    rewrite Hobj. cbn [sent objects]. apply fn_lookup_insert.
Qed.

(** The first request of [call_gpt] is made of the messages as it finds
    them. *)
Lemma call_gpt_first_request (messages : list loc) (fuel : nat)
    (w : world T) :
  messages <> [] -> (0 < fuel)%nat ->
  exists rest,
    requests (call_gpt model messages max_tokens stop_sequence fuel w).2
    = requests w ++ buffered_settings model messages max_tokens w :: rest.
Proof.
  intros Hne Hfuel. apply last_is_Some in Hne as [l Hlast].
  destruct fuel as [|fuel]; [lia|].
  unfold call_gpt, get_last_content. rewrite Hlast. cbn [call_gpt_loop].
  pose proof (call_gpt_round_effects model messages max_tokens stop_sequence
                [] true (content (objects w l)) w) as [Hrq _].
  destruct (call_gpt_round model messages max_tokens stop_sequence []
              true (content (objects w l)) w)
    as [[e | [[acc ongoing] conv]] w1]; cbn [fst snd] in *.
  - exists []. exact Hrq.
  - destruct (call_gpt_loop_kept model messages max_tokens stop_sequence
                fuel acc ongoing conv w1) as [_ [new [Hnew _]]].
    exists new. rewrite Hnew, Hrq, <- app_assoc. reflexivity.
Qed.

(** So is the first request of the streaming branch. *)
Lemma consume_first_request (messages : list loc) (fuel count : nat)
    (w : world T) :
  messages <> [] -> (0 < fuel)%nat ->
  exists rest,
    requests
      (consume model messages max_tokens stop_sequence fuel count
         GenCreated w).2
    = requests w ++ streaming_settings model messages max_tokens w :: rest.
Proof.
  intros Hne Hfuel. apply last_is_Some in Hne as [l Hlast].
  destruct fuel as [|fuel]; [lia|].
  cbn [consume gen_next]. unfold get_last_content. rewrite Hlast.
  cbn [gen_loop].
  destruct (create_stream (client w)
              (streaming_settings model messages max_tokens w))
    as [c [e | response]].
  - exists []. reflexivity.
  - match goal with
    | |- context [gen_chunks ?k ?a ?o ?cv ?cur ?ds ?f ?w1] =>
        assert (Hkept : conversation_kept messages w1
                          (gen_chunks k a o cv cur ds f w1).2)
          by (apply gen_chunks_kept; intros cur' w';
              apply gen_round_end_kept; intros;
              apply gen_loop_kept);
        destruct (gen_chunks k a o cv cur ds f w1) as [[event g] w2]
    end.
    destruct Hkept as [_ [new [Hnew _]]]. cbn [snd sent requests] in Hnew.
    destruct event as [chunk| |e|]; cbn [snd];
      try (exists new; rewrite Hnew, <- app_assoc; reflexivity).
    set (w3 := match printed (filter_step count chunk) with
               | Some text => print text [] w2
               | None => w2
               end).
    assert (Hw3 : requests w3 = requests w2)
      by (unfold w3; destruct (printed (filter_step count chunk));
          reflexivity).
    destruct (stopped (filter_step count chunk)).
    + exists new. cbn [snd]. rewrite Hw3, Hnew, <- app_assoc. reflexivity.
    + destruct (consume_kept model messages max_tokens stop_sequence fuel
                  (new_count (filter_step count chunk)) g w3)
        as [_ [new' [Hnew' _]]].
      exists (new ++ new'). rewrite Hnew', Hw3, Hnew, <- !app_assoc.
      reflexivity.
Qed.

(** X11.  In either mode, with any transport, the first request
    [generate_long_response] sends carries the given model and token
    limit, both penalties at zero, the key [stream] set to true in
    streaming mode and absent otherwise, and two messages: the system
    prompt built around the stop marker, and the user prompt. *)
Theorem generate_long_response_first_request
    (fuel : nat) (stream : bool) (w : world T) :
  (0 < fuel)%nat ->
  exists rest,
    requests
      (generate_long_response fuel model max_tokens stop_sequence stream
         w).2
    = requests w
      ++ ApiSettings model
           [generate_system_message (system_prompt stop_sequence);
            generate_user_message user_prompt]
           max_tokens 0 0 (if stream then Some true else None)
         :: rest.
Proof.
  intros Hfuel. unfold generate_long_response. cbn [alloc].
  assert (Hrender : forall (w2 : world T),
    objects w2
    = <[S (fresh w) := generate_user_message user_prompt]>
        (<[fresh w := generate_system_message (system_prompt stop_sequence)]>
           (objects w)) ->
    render [fresh w; S (fresh w)] w2
    = [generate_system_message (system_prompt stop_sequence);
       generate_user_message user_prompt]).
  { intros w2 Hobj. unfold render. rewrite Hobj. cbn [map].
    rewrite fn_lookup_insert, fn_lookup_insert_ne by lia.
    rewrite fn_lookup_insert. reflexivity. }
  destruct stream; cbn [negb].
  - match goal with
    | |- context [consume _ ?ms _ _ _ _ _ ?w2] =>
        destruct (consume_first_request ms fuel 0 w2) as [rest Hrq];
          [discriminate | exact Hfuel |]
    end.
    exists rest. rewrite Hrq. unfold streaming_settings.
    rewrite Hrender by reflexivity. reflexivity.
  - match goal with
    | |- context [call_gpt _ ?ms _ _ _ ?w2] =>
        destruct (call_gpt_first_request ms fuel w2) as [rest Hrq];
          [discriminate | exact Hfuel |];
        destruct (call_gpt model ms max_tokens stop_sequence fuel w2)
          as [[out | e |] w']
    end; cbn [snd print requests] in *; exists rest; rewrite Hrq;
      unfold buffered_settings; rewrite Hrender by reflexivity;
      reflexivity.
Qed.

Lemma call_gpt_ok_stdout (messages : list loc) (fuel : nat) (out : str)
    (w w' : world T) :
  call_gpt model messages max_tokens stop_sequence fuel w = (Ok out, w') ->
  stdout w' = stdout w.
Proof.
  unfold call_gpt. destruct (get_last_content messages w) as [e | conv];
    [discriminate|].
  intros Hrun.
  pose proof (call_gpt_loop_outcomes model messages max_tokens
                stop_sequence fuel [] true conv w) as Hloop.
  cbn zeta in Hloop. rewrite Hrun in Hloop. cbn [fst snd] in Hloop.
  apply Hloop.
Qed.

(** X12.  In buffered mode the result is printed once, as one line.  On
    a transport that answers the fragments [earlier ++ [final]], the
    marker first in [final], [generate_long_response] returns after one
    call a fragment, and all it has printed is the concatenation of the
    fragments, the marker removed and the whole stripped, followed by a
    line break. *)
Theorem generate_long_response_prints_result
    (earlier : list str) (final : str) (fuel : nat) (w : world T) :
  answers (client w) (earlier ++ [final]) ->
  Forall (fun fragment => ~ PyStr.occurs stop_sequence fragment) earlier ->
  PyStr.occurs stop_sequence final ->
  (length (earlier ++ [final]) <= fuel)%nat ->
  exists w',
    generate_long_response fuel model max_tokens stop_sequence false w
    = (Ok tt, w')
    /\ stdout w'
       = stdout w
         ++ [PyStr.strip
               (PyStr.replace (concat (earlier ++ [final])) stop_sequence
                  [])
             ++ [NL]]
    /\ length (requests w')
       = (length (requests w) + length (earlier ++ [final]))%nat.
Proof.
  intros Hanswers Hfree Hfinal Hfuel. unfold generate_long_response.
  cbn [alloc negb].
  match goal with
  | |- context [call_gpt _ ?ms _ _ _ ?w2] =>
      destruct (call_gpt_answers model ms max_tokens stop_sequence earlier
                  final fuel w2) as [w' [Hrun Hrq]];
        [discriminate
        |exact Hanswers
        |eapply Forall_impl; [|exact Hfree]; intros fragment;
         apply PyStrFacts.contains_false
        |apply PyStrFacts.contains_true, Hfinal
        |rewrite length_app in Hfuel; simpl in Hfuel; lia
        |];
      pose proof (call_gpt_ok_stdout ms fuel _ w2 w' Hrun) as Hstd
  end.
  rewrite Hrun. rewrite PyStrFacts.strip_idem.
  eexists. split; [reflexivity|].
  cbn [print stdout requests] in *. rewrite Hstd.
  split; [reflexivity | exact Hrq].
Qed.

(** X13.  [generate_long_response] works on two message objects of its
    own: in either mode, with any transport and however the run ends,
    every object that existed before is left as it was, the system
    message made at the start is never changed, and the user message
    keeps its role. *)
Theorem generate_long_response_frame
    (fuel : nat) (stream : bool) (w : world T) :
  let run :=
    generate_long_response fuel model max_tokens stop_sequence stream w in
  (forall l, l <> fresh w -> l <> S (fresh w) ->
             objects run.2 l = objects w l)
  /\ objects run.2 (fresh w)
     = generate_system_message (system_prompt stop_sequence)
  /\ role (objects run.2 (S (fresh w))) = lit "user".
Proof.
  unfold generate_long_response.
  cbn [alloc fresh client objects stdout requests].
  set (messages := [fresh w; S (fresh w)]).
  set (w2 := World (client w)
               (<[S (fresh w) := generate_user_message user_prompt]>
                  (<[fresh w :=
                       generate_system_message (system_prompt stop_sequence)]>
                     (objects w)))
               (S (S (fresh w))) (stdout w) (requests w)).
  assert (Hframe : forall w' : world T,
    conversation_kept messages w2 w' ->
    (forall l, l <> fresh w -> l <> S (fresh w) ->
               objects w' l = objects w l)
    /\ objects w' (fresh w)
       = generate_system_message (system_prompt stop_sequence)
    /\ role (objects w' (S (fresh w))) = lit "user").
  { intros w' [[Hother Hrole] _]. split; [|split].
    - intros l Hsystem Huser. rewrite Hother by (cbn; congruence).
      cbn [w2 objects]. rewrite !fn_lookup_insert_ne by congruence.
      reflexivity.
    - rewrite Hother by (cbn; intros [= Heq]; lia).
      cbn [w2 objects]. rewrite fn_lookup_insert_ne by lia.
      apply fn_lookup_insert.
    - rewrite Hrole. cbn [w2 objects]. rewrite fn_lookup_insert.
      reflexivity. }
  destruct stream; cbn [negb].
  - apply Hframe, consume_kept.
  - assert (Hprint : forall r : outcome str * world T,
      conversation_kept messages w2 r.2 ->
      conversation_kept messages w2
        (match r with
         | (Ok response, w') => (Ok tt, print response [NL] w')
         | (Raise e, w') => (Raise e, w')
         | (OutOfFuel, w') => (OutOfFuel, w')
         end).2).
    { intros [[out | e |] w'] Hkept; exact Hkept. }
    apply Hframe.
    apply (Hprint (call_gpt model messages max_tokens stop_sequence fuel w2)).
    apply call_gpt_kept.
Qed.

End Program.

(** ** The drivers on an empty list of messages *)

(** X14.  An empty list of messages stops both drivers before they reach
    the transport.  [call_gpt] raises [IndexError] leaving everything as
    it was -- nothing sent, nothing printed -- exactly when the list is
    empty; so do, on an empty list, the first call of [next] on the
    generator and the consumer loop. *)
Theorem drivers_empty_messages
    {T : Type} `{Client T}
    (model : str) (messages : list loc) (max_tokens : Z)
    (stop_sequence : str) (fuel count : nat) (w : world T) :
  (call_gpt model messages max_tokens stop_sequence fuel w
   = (Raise IndexError, w)
   <-> messages = [])
  /\ (messages = [] ->
      gen_next model messages max_tokens stop_sequence fuel GenCreated w
      = (GenRaise IndexError, GenFinished, w))
  /\ (messages = [] ->
      consume model messages max_tokens stop_sequence (S fuel) count
        GenCreated w
      = (Raise IndexError, w)).
Proof.
  split; [split|split].
  - intros Hrun. destruct messages as [|l0 messages0] eqn:Hmessages;
      [reflexivity|].
    exfalso. rewrite <- Hmessages in Hrun.
    assert (Hne : messages <> []) by (rewrite Hmessages; discriminate).
    apply last_is_Some in Hne as [l Hlast].
    unfold call_gpt, get_last_content in Hrun. rewrite Hlast in Hrun.
    pose proof (call_gpt_loop_outcomes model messages max_tokens
                  stop_sequence fuel [] true (content (objects w l)) w)
      as Hloop.
    cbn zeta in Hloop. rewrite Hrun in Hloop. cbn [fst snd] in Hloop.
    destruct Hloop as [Hstd _].
    apply (f_equal (@length str)) in Hstd. rewrite length_app in Hstd.
    cbn [length] in Hstd. lia.
  - intros ->. reflexivity.
  - intros ->. reflexivity.
  - intros ->. reflexivity.
Qed.

(** ** The properties at runs of the scripted transport *)

Lemma script_answers_then_fails (fragments : list str)
    (streamed : list chunk_stream) :
  answers_then_fails (Script fragments streamed) fragments
    (TransportError (lit "script exhausted")).
Proof.
  unfold answers_then_fails.
  induction fragments as [|fragment fragments IH].
  - intros rq. exists (Script [] streamed). reflexivity.
  - intros rq. exists (Script fragments streamed).
    split; [reflexivity | exact IH].
Qed.

Lemma script_streams_rounds (fragments : list str)
    (rounds : list (list (option str))) (more : list chunk_stream) :
  streams_rounds
    (Script fragments
       (map (fun response => ChunkStream response None) rounds ++ more))
    rounds.
Proof.
  induction rounds as [|response rounds IH]; [exact I|].
  intros rq.
  exists (Script fragments
            (map (fun response => ChunkStream response None) rounds
             ++ more)).
  split; [reflexivity | exact IH].
Qed.

Lemma call_gpt_keeps_calling_witness :
  let w :=
    two_messages (Script [lit "one "; lit "two "; lit "three"] [])
      (system_prompt default_stop_sequence) user_prompt in
  exists w',
    call_gpt (lit "gpt-4o") [0; 1]%nat 100 default_stop_sequence 2 w
    = (OutOfFuel, w')
    /\ length (requests w') = (length (requests w) + 2)%nat
    /\ stdout w' = stdout w.
Proof.
  apply (call_gpt_keeps_calling (lit "gpt-4o") [0; 1]%nat 100
           default_stop_sequence [lit "one "; lit "two "; lit "three"] 2).
  - discriminate.
  - apply (script_answers [lit "one "; lit "two "; lit "three"] [] []).
  - repeat constructor; apply PyStrFacts.contains_false; reflexivity.
  - simpl. lia.
Defined.

Lemma call_gpt_transport_failure_witness :
  let w :=
    two_messages (Script [lit "one "; lit "two "] [])
      (system_prompt default_stop_sequence) user_prompt in
  let e := TransportError (lit "script exhausted") in
  exists w',
    call_gpt (lit "gpt-4o") [0; 1]%nat 100 default_stop_sequence 5 w
    = (Raise e, w')
    /\ stdout w' = stdout w ++ [error_line e]
    /\ length (requests w')
       = (length (requests w) + S (length [lit "one "; lit "two "]))%nat
    /\ content (objects w' 1%nat)
       = content (objects w 1%nat)
         ++ concat (map transcript [lit "one "; lit "two "]).
Proof.
  apply (call_gpt_transport_failure (lit "gpt-4o") [0; 1]%nat 100
           default_stop_sequence [lit "one "; lit "two "]
           (TransportError (lit "script exhausted")) 5 1%nat).
  - reflexivity.
  - apply (script_answers_then_fails [lit "one "; lit "two "] []).
  - repeat constructor; apply PyStrFacts.contains_false; reflexivity.
  - simpl. lia.
Defined.

Lemma call_gpt_conversation_witness :
  let w :=
    two_messages
      (Script [lit "one "; lit "two "; lit "done" ++ default_stop_sequence]
         [])
      (system_prompt default_stop_sequence) user_prompt in
  let fragments :=
    [lit "one "; lit "two "] ++ [lit "done" ++ default_stop_sequence] in
  exists out w',
    call_gpt (lit "gpt-4o") [0; 1]%nat 100 default_stop_sequence 3 w
    = (Ok out, w')
    /\ content (objects w' 1%nat)
       = content (objects w 1%nat) ++ concat (map transcript fragments)
    /\ exists new,
         requests w' = requests w ++ new
         /\ map trailing_content new
            = map Some (conversations (content (objects w 1%nat)) fragments).
Proof.
  apply (call_gpt_conversation (lit "gpt-4o") [0; 1]%nat 100
           default_stop_sequence [lit "one "; lit "two "]
           (lit "done" ++ default_stop_sequence) 3 1%nat).
  - reflexivity.
  - apply (script_answers
             [lit "one "; lit "two "; lit "done" ++ default_stop_sequence]
             [] []).
  - repeat constructor; apply PyStrFacts.contains_false; reflexivity.
  - apply PyStrFacts.contains_true. reflexivity.
  - simpl. lia.
Defined.

Lemma call_gpt_stream_yields_witness :
  let rounds :=
    [[Some (lit "one "); None; Some []; Some (lit "two ")];
     [Some (lit "done"); Some [dagger; dagger]; Some [dagger; dagger; dagger]]]
  in
  let w :=
    two_messages
      (Script []
         (map (fun response => ChunkStream response None) rounds ++ []))
      (system_prompt default_stop_sequence) user_prompt in
  exists w',
    gen_pulls (lit "gpt-4o") [0; 1]%nat 100 default_stop_sequence 2
      (S (length (concat (map yielded rounds)))) GenCreated w
    = (map Yield (concat (map yielded rounds)) ++ [StopIteration],
       GenFinished, w')
    /\ stdout w' = stdout w
    /\ length (requests w') = (length (requests w) + length rounds)%nat
    /\ content (objects w' 1%nat)
       = content (objects w 1%nat)
         ++ concat (map transcript (map round_fragment rounds)).
Proof.
  apply (call_gpt_stream_yields (lit "gpt-4o") [0; 1]%nat 100
           default_stop_sequence 1%nat
           [[Some (lit "one "); None; Some []; Some (lit "two ")];
            [Some (lit "done"); Some [dagger; dagger];
             Some [dagger; dagger; dagger]]]
           2).
  - reflexivity.
  - apply (script_streams_rounds []
             [[Some (lit "one "); None; Some []; Some (lit "two ")];
              [Some (lit "done"); Some [dagger; dagger];
               Some [dagger; dagger; dagger]]]
             []).
  - split; reflexivity.
  - simpl. lia.
Defined.

Lemma call_gpt_stream_failure_witness :
  let response := [Some (lit "one "); None; Some (lit "two ")] in
  let e := TransportError (lit "connection reset") in
  let w :=
    two_messages (Script [] [ChunkStream response (Some e)])
      (system_prompt default_stop_sequence) user_prompt in
  exists w',
    gen_pulls (lit "gpt-4o") [0; 1]%nat 100 default_stop_sequence 3
      (S (length (yielded response))) GenCreated w
    = (map Yield (yielded response) ++ [GenRaise e], GenFinished, w')
    /\ stdout w' = stdout w ++ [error_line e]
    /\ requests w'
       = requests w
         ++ [streaming_settings (lit "gpt-4o") [0; 1]%nat 100 w]
    /\ objects w' = objects w.
Proof.
  apply (call_gpt_stream_failure (lit "gpt-4o") [0; 1]%nat 100
           default_stop_sequence 1%nat
           [Some (lit "one "); None; Some (lit "two ")]
           (TransportError (lit "connection reset"))
           (Script [] []) 3).
  - reflexivity.
  - reflexivity.
  - lia.
Defined.

Lemma generate_long_response_break_witness :
  let chunks :=
    [lit "so"; [dagger]; [dagger]; lit "a" ++ [dagger]; [dagger; dagger];
     [dagger]] in
  let more := [Some (lit "lost"); None] in
  let w :=
    start (Script [] [ChunkStream (map Some chunks ++ more) None]) in
  let run :=
    generate_long_response 6 (lit "gpt-4o") 100 default_stop_sequence true
      w in
  run.1 = Ok tt
  /\ stdout run.2 = stdout w ++ omap id (filter_chunks 0 chunks).1.1
  /\ length (requests run.2) = S (length (requests w))
  /\ objects run.2 (S (fresh w)) = generate_user_message user_prompt.
Proof.
  apply (generate_long_response_break (lit "gpt-4o") 100
           default_stop_sequence
           [lit "so"; [dagger]; [dagger]; lit "a" ++ [dagger];
            [dagger; dagger]; [dagger]]
           [Some (lit "lost"); None] None (Script [] []) 6).
  - intros rq. reflexivity.
  - repeat constructor; discriminate.
  - reflexivity.
  - simpl. lia.
Defined.

Lemma generate_long_response_first_request_witness :
  exists rest,
    requests
      (generate_long_response 1 (lit "gpt-4o") 100 default_stop_sequence
         true (start (Script [] []))).2
    = requests (start (Script [] []))
      ++ ApiSettings (lit "gpt-4o")
           [generate_system_message (system_prompt default_stop_sequence);
            generate_user_message user_prompt]
           100 0 0 (if true then Some true else None)
         :: rest.
Proof.
  apply (generate_long_response_first_request (lit "gpt-4o") 100
           default_stop_sequence 1 true (start (Script [] []))).
  lia.
Defined.

Lemma generate_long_response_prints_result_witness :
  let w :=
    start
      (Script [lit " one "; lit "two "; lit "done" ++ default_stop_sequence]
         []) in
  let fragments :=
    [lit " one "; lit "two "] ++ [lit "done" ++ default_stop_sequence] in
  exists w',
    generate_long_response 3 (lit "gpt-4o") 100 default_stop_sequence false
      w
    = (Ok tt, w')
    /\ stdout w'
       = stdout w
         ++ [PyStr.strip
               (PyStr.replace (concat fragments) default_stop_sequence [])
             ++ [NL]]
    /\ length (requests w')
       = (length (requests w) + length fragments)%nat.
Proof.
  apply (generate_long_response_prints_result (lit "gpt-4o") 100
           default_stop_sequence [lit " one "; lit "two "]
           (lit "done" ++ default_stop_sequence) 3).
  - apply (script_answers
             [lit " one "; lit "two "; lit "done" ++ default_stop_sequence]
             [] []).
  - repeat constructor; apply PyStrFacts.contains_false; reflexivity.
  - apply PyStrFacts.contains_true. reflexivity.
  - simpl. lia.
Defined.
